(** * Quiz-bank generator: corpus assembly and quota enforcement

    A shallow embedding of [data/generate_questions.py].  The script builds a
    list of question dictionaries by running twenty [for] loops over literal
    pools, pads the list to 200 entries with a [while] loop over a small
    filler pool, caps it with the slice [questions[:200]], dumps it as JSON
    and prints a summary.

    The two module-level variables [questions] and [question_id] are threaded
    explicitly as a [state]; every loop is a fold over its pool; the [while]
    loop is given both as a fuelled function (which evaluates) and as an
    inductive big-step relation (which has no fuel).  The literal pools are
    gathered in a [catalog] record so that the control logic can be studied
    for every catalog, the one of the script being [source_catalog]. *)

From Stdlib Require Import String Ascii List ZArith Arith Bool Lia.
From Stdlib Require Import Sorted Permutation FinFun.
Import ListNotations.
Local Open Scope string_scope.
Local Open Scope list_scope.

Set Implicit Arguments.

(** ** Python values *)

(** The character written [\n] in a Python literal. *)
Definition nl : string := String (ascii_of_nat 10) EmptyString.

(** A literal spanning several lines, given line by line: [lines [a; b]] is
    the Python literal ["a\nb"]. *)
Definition lines (ls : list string) : string := String.concat nl ls.

(** Python's [sub in s] on [str].  Strings are sequences of UTF-8 bytes here;
    for an ASCII needle the byte-wise and the code-point-wise searches agree. *)
Fixpoint contains (sub s : string) : bool :=
  if String.prefix sub s then true
  else match s with
       | EmptyString => false
       | String _ rest => contains sub rest
       end.

(** Python's built-in [sum] over integers. *)
Definition py_sum (l : list Z) : Z := fold_left Z.add l 0%Z.

(** Exceptions the script can raise while it builds the list. *)
Inductive exn : Type :=
| ZeroDivisionError
| IndexError.

(** Result of running a fragment that may raise or, in the fuelled model of
    the [while] loop, exhaust its fuel. *)
Inductive outcome (A : Type) : Type :=
| Done (a : A)
| Raised (e : exn)
| OutOfFuel.

Arguments Raised {A} e.
Arguments OutOfFuel {A}.

(** ** Data model *)

(** One dictionary of the [questions] list (lines 30-39 and siblings). *)
Record question : Type := Question {
  id : Z;
  type : string;
  language : option string;
  prompt : string;
  correct_complexity : string;
  explanation : string;
  difficulty : string;
  highlight_spans : list (Z * Z)
}.

(** The module-level variables [questions] (line 8) and [question_id]
    (line 9). *)
Record state : Type := State {
  questions : list question;
  question_id : Z
}.

Definition init : state := {| questions := []; question_id := 1 |}.

(** The literal pools: pairs [(text, explanation)], then tuples that also
    carry complexity and difficulty, then tuples that also carry a language. *)
Definition pair_pool : Type := list (string * string).
Definition quad_pool : Type := list (string * string * string * string).
Definition quint_pool : Type :=
  list (string * string * string * string * string).

Record catalog : Type := Catalog {
  o1_code_snippets : pair_pool;
  o1_algorithms : pair_pool;
  ologn_code_snippets : pair_pool;
  ologn_algorithms : pair_pool;
  on_code_snippets : pair_pool;
  on_algorithms : pair_pool;
  onlogn_code_snippets : pair_pool;
  onlogn_algorithms : pair_pool;
  on2_code_snippets : pair_pool;
  on2_algorithms : pair_pool;
  on3_code_snippets : pair_pool;
  on3_algorithms : pair_pool;
  o2n_code_snippets : pair_pool;
  o2n_algorithms : pair_pool;
  ofact_code_snippets : pair_pool;
  ofact_algorithms : pair_pool;
  cpp_questions : quad_pool;
  python_advanced : quad_pool;
  more_algorithms : quad_pool;
  mixed_questions : quint_pool
}.

(** The output dictionary [{"questions": questions[:200]}] (line 470). *)
Record document : Type := Document {
  doc_questions : list question
}.

(** The numbers printed at lines 474-480. *)
Record summary : Type := Summary {
  total : Z;
  easy : Z;
  medium : Z;
  hard : Z;
  code : Z;
  names : Z
}.

(** ** The literals of the script *)

Definition source_catalog : catalog := {|
    o1_code_snippets := [
      (lines ["def get_first(arr):"; "    return arr[0]"],
       "Array access is O(1) - direct index lookup.");
      (lines ["def swap(a, b):"; "    temp = a"; "    a = b"; "    b = temp"; "    return a, b"],
       "Variable swaps are O(1) - constant operations.");
      (lines ["def check_even(n):"; "    return n % 2 == 0"],
       "Modulo and comparison are O(1) operations.");
      ("x = dict[key]",
       "Hash table lookup averages O(1).");
      ("result = a + b * c",
       "Arithmetic operations are O(1).")
    ];
    o1_algorithms := [
      ("Accessing an array element by index",
       "Direct memory access is O(1).");
      ("Hash table lookup (average case)",
       "Hash computation and bucket access is O(1) average.");
      ("Stack push operation",
       "Adding to top of stack is O(1).");
      ("Queue dequeue operation",
       "Removing from front of queue is O(1).");
      ("Checking if number is even",
       "Single modulo operation is O(1).")
    ];
    ologn_code_snippets := [
      (lines ["def binary_search(arr, target):"; "    left, right = 0, len(arr)-1"; "    while left <= right:"; "        mid = (left + right) // 2"; "        if arr[mid] == target:"; "            return mid"; "        elif arr[mid] < target:"; "            left = mid + 1"; "        else:"; "            right = mid - 1"; "    return -1"],
       "Binary search halves search space each iteration → O(log n).");
      (lines ["def count_bits(n):"; "    count = 0"; "    while n > 0:"; "        n //= 2"; "        count += 1"; "    return count"],
       "Dividing by 2 each iteration → O(log n).");
      (lines ["def power_of_two(n):"; "    count = 0"; "    i = 1"; "    while i <= n:"; "        i *= 2"; "        count += 1"; "    return count"],
       "Multiplying by 2 each iteration → O(log n).");
      (lines ["for(int i = 1; i <= n; i *= 2) {"; "    cout << i << endl;"; "}"],
       "Loop with i *= 2 runs log₂(n) times.");
      (lines ["while(n > 1) {"; "    n /= 2;"; "}"],
       "Division by 2 pattern → O(log n).")
    ];
    ologn_algorithms := [
      ("Binary Search",
       "Halves search space each step → O(log n).");
      ("Balanced BST Search",
       "Height of balanced tree is O(log n).");
      ("Finding height of binary tree",
       "Traverses one path from root to leaf → O(log n) for balanced.");
      ("Skip List Search",
       "Probabilistically balanced structure → O(log n) average.");
      ("Interpolation Search (average)",
       "Improves on binary search for uniform data → O(log log n) average, but O(log n) typical.")
    ];
    on_code_snippets := [
      (lines ["def sum_array(arr):"; "    total = 0"; "    for num in arr:"; "        total += num"; "    return total"],
       "Single loop through n elements → O(n).");
      (lines ["def find_max(arr):"; "    max_val = arr[0]"; "    for i in range(1, len(arr)):"; "        if arr[i] > max_val:"; "            max_val = arr[i]"; "    return max_val"],
       "One pass through array → O(n).");
      (lines ["def linear_search(arr, target):"; "    for i in range(len(arr)):"; "        if arr[i] == target:"; "            return i"; "    return -1"],
       "Worst case checks all n elements → O(n).");
      (lines ["for i in range(n):"; "    print(i)"],
       "Simple loop from 0 to n → O(n).");
      (lines ["def reverse_string(s):"; "    return s[::-1]"],
       "String reversal requires touching all n characters → O(n).");
      (lines ["def count_vowels(s):"; "    count = 0"; "    for char in s:"; "        if char in 'aeiou':"; "            count += 1"; "    return count"],
       "Single pass through string → O(n).");
      (lines ["arr.append(x)"; "for item in arr:"; "    process(item)"],
       "Two sequential loops: O(1) + O(n) = O(n).")
    ];
    on_algorithms := [
      ("Linear Search",
       "May need to check all n elements.");
      ("Finding minimum in unsorted array",
       "Must examine all n elements.");
      ("Counting elements in array",
       "Single traversal → O(n).");
      ("Array traversal",
       "Visiting each element once → O(n).");
      ("Linked list traversal",
       "Following n pointers → O(n).")
    ];
    onlogn_code_snippets := [
      (lines ["def merge_sort(arr):"; "    if len(arr) <= 1:"; "        return arr"; "    mid = len(arr) // 2"; "    left = merge_sort(arr[:mid])"; "    right = merge_sort(arr[mid:])"; "    return merge(left, right)"],
       "Divides in half (log n levels) and merges (n work per level) → O(n log n).");
      (lines ["def quick_sort(arr):"; "    if len(arr) <= 1:"; "        return arr"; "    pivot = arr[len(arr)//2]"; "    left = [x for x in arr if x < pivot]"; "    middle = [x for x in arr if x == pivot]"; "    right = [x for x in arr if x > pivot]"; "    return quick_sort(left) + middle + quick_sort(right)"],
       "Average case partitions log n times with n work each → O(n log n).");
      ("arr.sort()",
       "Python's Timsort is O(n log n).");
      ("sorted_arr = sorted(arr)",
       "Built-in sorted() uses O(n log n) algorithm.")
    ];
    onlogn_algorithms := [
      ("Merge Sort",
       "Divide-and-conquer: log n levels, n work per level.");
      ("Quick Sort (average case)",
       "Partitioning is O(n), recursion depth is O(log n) on average.");
      ("Heap Sort",
       "Build heap O(n) + extract n times with O(log n) heapify.");
      ("Timsort (Python's sort)",
       "Hybrid merge/insertion sort → O(n log n).");
      ("Sorting using comparison-based algorithm",
       "Lower bound for comparison sorts is O(n log n).")
    ];
    on2_code_snippets := [
      (lines ["def bubble_sort(arr):"; "    n = len(arr)"; "    for i in range(n):"; "        for j in range(n-1):"; "            if arr[j] > arr[j+1]:"; "                arr[j], arr[j+1] = arr[j+1], arr[j]"],
       "Nested loops: outer n times, inner n times → O(n²).");
      (lines ["def selection_sort(arr):"; "    for i in range(len(arr)):"; "        min_idx = i"; "        for j in range(i+1, len(arr)):"; "            if arr[j] < arr[min_idx]:"; "                min_idx = j"; "        arr[i], arr[min_idx] = arr[min_idx], arr[i]"],
       "For each element, scan remaining array → O(n²).");
      (lines ["def print_pairs(arr):"; "    for i in range(len(arr)):"; "        for j in range(len(arr)):"; "            print(arr[i], arr[j])"],
       "All pairs of n elements → n × n = O(n²).");
      (lines ["for(int i = 0; i < n; i++) {"; "    for(int j = 0; j < n; j++) {"; "        matrix[i][j] = i + j;"; "    }"; "}"],
       "Filling n×n matrix → O(n²).");
      (lines ["def has_duplicate(arr):"; "    for i in range(len(arr)):"; "        for j in range(i+1, len(arr)):"; "            if arr[i] == arr[j]:"; "                return True"; "    return False"],
       "Comparing each pair: n(n-1)/2 comparisons → O(n²).")
    ];
    on2_algorithms := [
      ("Bubble Sort",
       "Compares adjacent elements n times → O(n²).");
      ("Selection Sort",
       "Finds minimum n times, scanning n elements → O(n²).");
      ("Insertion Sort (worst case)",
       "May shift up to n elements for each of n inserts → O(n²).");
      ("Checking all pairs in array",
       "n choose 2 pairs = n(n-1)/2 → O(n²).");
      ("Naive string matching",
       "For m-length pattern in n-length text, worst case O(mn) ≈ O(n²) when m≈n.")
    ];
    on3_code_snippets := [
      (lines ["for i in range(n):"; "    for j in range(n):"; "        for k in range(n):"; "            print(i, j, k)"],
       "Three nested loops, each running n times → n×n×n = O(n³).");
      (lines ["def matrix_multiply(A, B):"; "    n = len(A)"; "    C = [[0]*n for _ in range(n)]"; "    for i in range(n):"; "        for j in range(n):"; "            for k in range(n):"; "                C[i][j] += A[i][k] * B[k][j]"; "    return C"],
       "Standard matrix multiplication: three nested loops → O(n³).");
      (lines ["def all_triplets(arr):"; "    result = []"; "    for i in range(len(arr)):"; "        for j in range(len(arr)):"; "            for k in range(len(arr)):"; "                result.append((arr[i], arr[j], arr[k]))"; "    return result"],
       "Generating all triplets from n elements → n³ combinations.")
    ];
    on3_algorithms := [
      ("Matrix Multiplication (naive)",
       "Three nested loops for n×n matrices → O(n³).");
      ("Floyd-Warshall Algorithm",
       "All-pairs shortest path with three nested loops → O(n³).");
      ("Finding all triplets in array",
       "Checking all combinations of 3 elements → O(n³).")
    ];
    o2n_code_snippets := [
      (lines ["def fibonacci(n):"; "    if n <= 1:"; "        return n"; "    return fibonacci(n-1) + fibonacci(n-2)"],
       "Each call makes 2 recursive calls → binary tree of calls → O(2ⁿ).");
      (lines ["def power_set(arr):"; "    if len(arr) == 0:"; "        return [[]]"; "    elem = arr[0]"; "    rest = power_set(arr[1:])"; "    return rest + [subset + [elem] for subset in rest]"],
       "Generates all 2ⁿ subsets → O(2ⁿ).");
      (lines ["def solve_n_queens(n, row=0):"; "    if row == n:"; "        return 1"; "    count = 0"; "    for col in range(n):"; "        if is_safe(row, col):"; "            count += solve_n_queens(n, row+1)"; "    return count"],
       "Tries all possible placements → exponential backtracking.")
    ];
    o2n_algorithms := [
      ("Fibonacci (naive recursive)",
       "T(n) = T(n-1) + T(n-2) → exponential growth.");
      ("Tower of Hanoi",
       "T(n) = 2T(n-1) + 1 → O(2ⁿ).");
      ("Generating all subsets",
       "2ⁿ possible subsets of n elements.");
      ("Traveling Salesman (brute force)",
       "Tries all permutations → factorial or exponential.");
      ("Subset Sum (brute force)",
       "Checks all 2ⁿ subsets.")
    ];
    ofact_code_snippets := [
      (lines ["def permutations(arr):"; "    if len(arr) <= 1:"; "        return [arr]"; "    result = []"; "    for i in range(len(arr)):"; "        rest = arr[:i] + arr[i+1:]"; "        for perm in permutations(rest):"; "            result.append([arr[i]] + perm)"; "    return result"],
       "Generates all n! permutations.");
      (lines ["def traveling_salesman_brute(cities):"; "    min_cost = float('inf')"; "    for perm in all_permutations(cities):"; "        cost = calculate_cost(perm)"; "        min_cost = min(min_cost, cost)"; "    return min_cost"],
       "Tries all n! orderings of cities.")
    ];
    ofact_algorithms := [
      ("Generating all permutations",
       "n! permutations of n elements.");
      ("Traveling Salesman (exact brute force)",
       "Checks all n! routes.");
      ("Bogosort",
       "Randomly shuffles until sorted → O(n!) average.")
    ];
    cpp_questions := [
      (lines ["vector<int> v;"; "for(int i = 0; i < n; i++) {"; "    v.push_back(i);"; "}"],
       "Single loop with push_back (amortized O(1)) → O(n).",
       "O(n)",
       "easy");
      (lines ["int sum = 0;"; "for(int i = 0; i < n; i++) {"; "    sum += arr[i];"; "}"],
       "Single loop adding elements → O(n).",
       "O(n)",
       "easy");
      (lines ["for(int i = 0; i < n; i++) {"; "    for(int j = i; j < n; j++) {"; "        sum += arr[i] + arr[j];"; "    }"; "}"],
       "Nested loop with inner starting at i → n + (n-1) + ... + 1 = O(n²).",
       "O(n²)",
       "medium");
      (lines ["priority_queue<int> pq;"; "for(int i = 0; i < n; i++) {"; "    pq.push(arr[i]);"; "}"],
       "n insertions into heap, each O(log n) → O(n log n).",
       "O(n log n)",
       "medium");
      (lines ["map<int, int> m;"; "m[key] = value;"],
       "Map insertion (balanced BST) is O(log n).",
       "O(log n)",
       "easy");
      (lines ["unordered_map<int, int> um;"; "um[key] = value;"],
       "Hash map insertion averages O(1).",
       "O(1)",
       "easy")
    ];
    python_advanced := [
      (lines ["def nested_sum(matrix):"; "    return sum(sum(row) for row in matrix)"],
       "Two nested iterations over n×n matrix → O(n²).",
       "O(n²)",
       "medium");
      (lines ["def list_comp(n):"; "    return [i*2 for i in range(n)]"],
       "List comprehension with single loop → O(n).",
       "O(n)",
       "easy");
      (lines ["def dict_comp(n):"; "    return {i: i**2 for i in range(n)}"],
       "Dictionary comprehension with n elements → O(n).",
       "O(n)",
       "easy");
      ("arr = sorted(arr, reverse=True)",
       "Sorting is O(n log n) regardless of reverse flag.",
       "O(n log n)",
       "easy");
      ("result = list(set(arr))",
       "Converting to set is O(n), back to list is O(n) → O(n).",
       "O(n)",
       "easy");
      ("max_val = max(arr)",
       "Built-in max scans all elements once → O(n).",
       "O(n)",
       "easy")
    ];
    more_algorithms := [
      ("DFS (Depth-First Search) on graph",
       "Visits each vertex and edge once → O(V + E).",
       "O(n)",
       "medium");
      ("BFS (Breadth-First Search) on graph",
       "Visits each vertex and edge once → O(V + E).",
       "O(n)",
       "medium");
      ("Dijkstra's Algorithm (binary heap)",
       "Each vertex dequeued once, edges relaxed → O((V+E) log V).",
       "O(n log n)",
       "hard");
      ("Prim's Algorithm (binary heap)",
       "Similar to Dijkstra → O((V+E) log V).",
       "O(n log n)",
       "hard");
      ("Kruskal's Algorithm",
       "Sort edges O(E log E), union-find operations → O(E log E).",
       "O(n log n)",
       "hard");
      ("Counting Sort",
       "Non-comparison sort with O(n+k) where k is range → O(n) when k=O(n).",
       "O(n)",
       "medium");
      ("Radix Sort",
       "Sorts by digits, d passes of O(n+k) → O(dn) = O(n) when d is constant.",
       "O(n)",
       "medium");
      ("Bucket Sort (average)",
       "Distributes into buckets and sorts → O(n) average.",
       "O(n)",
       "medium");
      ("KMP String Matching",
       "Preprocessing O(m) + matching O(n) → O(m+n) = O(n).",
       "O(n)",
       "hard");
      ("Rabin-Karp Algorithm",
       "Rolling hash for pattern matching → O(n+m) average.",
       "O(n)",
       "medium")
    ];
    mixed_questions := [
      (lines ["def mystery1(n):"; "    result = 0"; "    i = 1"; "    while i < n:"; "        result += i"; "        i *= 2"; "    return result"],
       "Loop with i *= 2 → O(log n).",
       "O(log n)",
       "medium",
       "python");
      (lines ["def mystery2(n):"; "    for i in range(n):"; "        j = i"; "        while j > 0:"; "            print(j)"; "            j //= 2"],
       "Outer loop n times, inner loop log i times → O(n log n).",
       "O(n log n)",
       "hard",
       "python");
      (lines ["for(int i = 0; i < n; i++) {"; "    for(int j = 0; j < i; j++) {"; "        cout << i + j;"; "    }"; "}"],
       "Outer n times, inner i times → 0+1+2+...+(n-1) = O(n²).",
       "O(n²)",
       "medium",
       "cpp");
      (lines ["def factorial(n):"; "    if n <= 1:"; "        return 1"; "    return n * factorial(n-1)"],
       "Single recursive call → O(n).",
       "O(n)",
       "easy",
       "python");
      (lines ["def tower_hanoi(n):"; "    if n == 1:"; "        return 1"; "    return 2 * tower_hanoi(n-1) + 1"],
       "T(n) = 2T(n-1) + 1 → O(2ⁿ).",
       "O(2ⁿ)",
       "hard",
       "python")
    ]
|}.

(** The filler pool, a literal inside the [while] loop (lines 449-455). *)
Definition easy_fillers : quint_pool := [
    ("return len(arr)",
     "Getting length is O(1).",
     "O(1)",
     "easy",
     "python");
    ("x = arr[index]",
     "Array indexing is O(1).",
     "O(1)",
     "easy",
     "python");
    ("arr.clear()",
     "Clearing list is O(n).",
     "O(n)",
     "easy",
     "python");
    ("'substring' in string",
     "String search is O(n*m) worst case → O(n) typically.",
     "O(n)",
     "easy",
     "python");
    (lines ["for i in range(n):"; "    arr.append(i)"],
     "n append operations (amortized O(1) each) → O(n).",
     "O(n)",
     "easy",
     "python")
  ].

(** ** Building the list

    [questions.append({"id": question_id, ...}); question_id += 1]: the two
    statements every loop body ends with.  [mk] is the dictionary display,
    a function of the current value of [question_id]. *)
Definition emit (mk : Z -> question) (s : state) : state :=
  {| questions := questions s ++ [mk (question_id s)];
     question_id := (question_id s + 1)%Z |}.

(** [for x in pool: body]. *)
Definition for_each (X : Type) (body : X -> state -> state)
    (pool : list X) (s : state) : state :=
  fold_left (fun s' x => body x s') pool s.

(** *** The dictionary displays, one per loop *)

(** Lines 29-40. *)
Definition o1_code_question (x : string * string)
    (question_id : Z) : question :=
  let '(code, explanation) := x in
  {| id := question_id;
     type := "code";
     language := Some "python";
     prompt := code;
     correct_complexity := "O(1)";
     explanation := explanation;
     difficulty := "easy";
     highlight_spans := [] |}.

(** Lines 43-54. *)
Definition o1_name_question (x : string * string)
    (question_id : Z) : question :=
  let '(alg, explanation) := x in
  {| id := question_id;
     type := "name";
     language := None;
     prompt := alg;
     correct_complexity := "O(1)";
     explanation := explanation;
     difficulty := "easy";
     highlight_spans := [] |}.

(** Lines 73-85. *)
Definition ologn_code_question (x : string * string)
    (question_id : Z) : question :=
  let '(code, explanation) := x in
  let lang :=
    if contains "cout" code || contains "int i" code then "cpp" else "python" in
  {| id := question_id;
     type := "code";
     language := Some lang;
     prompt := code;
     correct_complexity := "O(log n)";
     explanation := explanation;
     difficulty := if (question_id mod 2 =? 0)%Z then "easy" else "medium";
     highlight_spans := [] |}.

(** Lines 87-98. *)
Definition ologn_name_question (x : string * string)
    (question_id : Z) : question :=
  let '(alg, explanation) := x in
  {| id := question_id;
     type := "name";
     language := None;
     prompt := alg;
     correct_complexity := "O(log n)";
     explanation := explanation;
     difficulty := "easy";
     highlight_spans := [] |}.

(** Lines 119-130. *)
Definition on_code_question (x : string * string)
    (question_id : Z) : question :=
  let '(code, explanation) := x in
  {| id := question_id;
     type := "code";
     language := Some "python";
     prompt := code;
     correct_complexity := "O(n)";
     explanation := explanation;
     difficulty := "easy";
     highlight_spans := [] |}.

(** Lines 132-143. *)
Definition on_name_question (x : string * string)
    (question_id : Z) : question :=
  let '(alg, explanation) := x in
  {| id := question_id;
     type := "name";
     language := None;
     prompt := alg;
     correct_complexity := "O(n)";
     explanation := explanation;
     difficulty := "easy";
     highlight_spans := [] |}.

(** Lines 161-172. *)
Definition onlogn_code_question (x : string * string)
    (question_id : Z) : question :=
  let '(code, explanation) := x in
  {| id := question_id;
     type := "code";
     language := Some "python";
     prompt := code;
     correct_complexity := "O(n log n)";
     explanation := explanation;
     difficulty := "medium";
     highlight_spans := [] |}.

(** Lines 174-185. *)
Definition onlogn_name_question (x : string * string)
    (question_id : Z) : question :=
  let '(alg, explanation) := x in
  {| id := question_id;
     type := "name";
     language := None;
     prompt := alg;
     correct_complexity := "O(n log n)";
     explanation := explanation;
     difficulty := "medium";
     highlight_spans := [] |}.

(** Lines 204-216. *)
Definition on2_code_question (x : string * string)
    (question_id : Z) : question :=
  let '(code, explanation) := x in
  let lang :=
    if contains "cout" code || contains "int i" code then "cpp" else "python" in
  {| id := question_id;
     type := "code";
     language := Some lang;
     prompt := code;
     correct_complexity := "O(n²)";
     explanation := explanation;
     difficulty := if (question_id mod 3 =? 0)%Z then "easy" else "medium";
     highlight_spans := [] |}.

(** Lines 218-229. *)
Definition on2_name_question (x : string * string)
    (question_id : Z) : question :=
  let '(alg, explanation) := x in
  {| id := question_id;
     type := "name";
     language := None;
     prompt := alg;
     correct_complexity := "O(n²)";
     explanation := explanation;
     difficulty := "easy";
     highlight_spans := [] |}.

(** Lines 244-255. *)
Definition on3_code_question (x : string * string)
    (question_id : Z) : question :=
  let '(code, explanation) := x in
  {| id := question_id;
     type := "code";
     language := Some "python";
     prompt := code;
     correct_complexity := "O(n³)";
     explanation := explanation;
     difficulty := "medium";
     highlight_spans := [] |}.

(** Lines 257-268. *)
Definition on3_name_question (x : string * string)
    (question_id : Z) : question :=
  let '(alg, explanation) := x in
  {| id := question_id;
     type := "name";
     language := None;
     prompt := alg;
     correct_complexity := "O(n³)";
     explanation := explanation;
     difficulty := "medium";
     highlight_spans := [] |}.

(** Lines 285-296. *)
Definition o2n_code_question (x : string * string)
    (question_id : Z) : question :=
  let '(code, explanation) := x in
  {| id := question_id;
     type := "code";
     language := Some "python";
     prompt := code;
     correct_complexity := "O(2ⁿ)";
     explanation := explanation;
     difficulty := "hard";
     highlight_spans := [] |}.

(** Lines 298-309. *)
Definition o2n_name_question (x : string * string)
    (question_id : Z) : question :=
  let '(alg, explanation) := x in
  {| id := question_id;
     type := "name";
     language := None;
     prompt := alg;
     correct_complexity := "O(2ⁿ)";
     explanation := explanation;
     difficulty := "hard";
     highlight_spans := [] |}.

(** Lines 323-334. *)
Definition ofact_code_question (x : string * string)
    (question_id : Z) : question :=
  let '(code, explanation) := x in
  {| id := question_id;
     type := "code";
     language := Some "python";
     prompt := code;
     correct_complexity := "O(n!)";
     explanation := explanation;
     difficulty := "hard";
     highlight_spans := [] |}.

(** Lines 336-347. *)
Definition ofact_name_question (x : string * string)
    (question_id : Z) : question :=
  let '(alg, explanation) := x in
  {| id := question_id;
     type := "name";
     language := None;
     prompt := alg;
     correct_complexity := "O(n!)";
     explanation := explanation;
     difficulty := "hard";
     highlight_spans := [] |}.

(** Lines 362-373. *)
Definition cpp_question (x : string * string * string * string)
    (question_id : Z) : question :=
  let '(code, explanation, complexity, difficulty) := x in
  {| id := question_id;
     type := "code";
     language := Some "cpp";
     prompt := code;
     correct_complexity := complexity;
     explanation := explanation;
     difficulty := difficulty;
     highlight_spans := [] |}.

(** Lines 385-396. *)
Definition python_advanced_question (x : string * string * string * string)
    (question_id : Z) : question :=
  let '(code, explanation, complexity, difficulty) := x in
  {| id := question_id;
     type := "code";
     language := Some "python";
     prompt := code;
     correct_complexity := complexity;
     explanation := explanation;
     difficulty := difficulty;
     highlight_spans := [] |}.

(** Lines 412-423. *)
Definition more_algorithms_question (x : string * string * string * string)
    (question_id : Z) : question :=
  let '(alg, explanation, complexity, difficulty) := x in
  {| id := question_id;
     type := "name";
     language := None;
     prompt := alg;
     correct_complexity := complexity;
     explanation := explanation;
     difficulty := difficulty;
     highlight_spans := [] |}.

(** Lines 434-445. *)
Definition mixed_question (x : string * string * string * string * string)
    (question_id : Z) : question :=
  let '(code, explanation, complexity, difficulty, lang) := x in
  {| id := question_id;
     type := "code";
     language := Some lang;
     prompt := code;
     correct_complexity := complexity;
     explanation := explanation;
     difficulty := difficulty;
     highlight_spans := [] |}.

(** Lines 456-467. *)
Definition filler_question (x : string * string * string * string * string)
    (question_id : Z) : question :=
  let '(code, explanation, complexity, difficulty, lang) := x in
  {| id := question_id;
     type := "code";
     language := Some lang;
     prompt := code;
     correct_complexity := complexity;
     explanation := explanation;
     difficulty := difficulty;
     highlight_spans := [] |}.

(** *** The loops, in program order

    A [stage] is one [for] loop: the pool it ranges over and the dictionary it
    appends for each entry. *)
Record stage : Type := Stage {
  item : Type;
  make : item -> Z -> question;
  pool : list item
}.

Definition run_stage (st : stage) (s : state) : state :=
  for_each (fun x => emit (make st x)) (pool st) s.

Definition stages (c : catalog) : list stage :=
  [
    Stage o1_code_question (o1_code_snippets c);
    Stage o1_name_question (o1_algorithms c);
    Stage ologn_code_question (ologn_code_snippets c);
    Stage ologn_name_question (ologn_algorithms c);
    Stage on_code_question (on_code_snippets c);
    Stage on_name_question (on_algorithms c);
    Stage onlogn_code_question (onlogn_code_snippets c);
    Stage onlogn_name_question (onlogn_algorithms c);
    Stage on2_code_question (on2_code_snippets c);
    Stage on2_name_question (on2_algorithms c);
    Stage on3_code_question (on3_code_snippets c);
    Stage on3_name_question (on3_algorithms c);
    Stage o2n_code_question (o2n_code_snippets c);
    Stage o2n_name_question (o2n_algorithms c);
    Stage ofact_code_question (ofact_code_snippets c);
    Stage ofact_name_question (ofact_algorithms c);
    Stage cpp_question (cpp_questions c);
    Stage python_advanced_question (python_advanced c);
    Stage more_algorithms_question (more_algorithms c);
    Stage mixed_question (mixed_questions c)
  ].

Definition run_stages (sts : list stage) (s : state) : state :=
  fold_left (fun s' st => run_stage st s') sts s.

(** The list and the counter when the padding loop of line 448 is reached,
    after all twenty loops: the working corpus. *)
Definition working (c : catalog) : state := run_stages (stages c) init.

(** ** Padding, capping and reporting *)

(** One turn of the body of the [while] loop (lines 449-467).  The index
    expression [len(questions) % len(easy_fillers)] raises on an empty pool. *)
Definition pad_body (fillers : quint_pool) (s : state) : outcome state :=
  match length fillers with
  | O => Raised ZeroDivisionError
  | S _ =>
      match nth_error fillers (length (questions s) mod length fillers) with
      | None => Raised IndexError
      | Some f => Done (emit (filler_question f) s)
      end
  end.

(** [while len(questions) < 200: ...] (line 448), with fuel: the test comes
    first, so a list that is long enough needs no fuel at all. *)
Fixpoint while_pad (fuel : nat) (fillers : quint_pool) (s : state)
    : outcome state :=
  if (length (questions s) <? 200)%nat then
    match fuel with
    | O => OutOfFuel
    | S fuel' =>
        match pad_body fillers s with
        | Done s' => while_pad fuel' fillers s'
        | Raised e => Raised e
        | OutOfFuel => OutOfFuel
        end
    end
  else Done s.

(** The same loop as a big-step relation, without fuel. *)
Inductive pad_loop (fillers : quint_pool) : state -> outcome state -> Prop :=
| pad_exit : forall s,
    200 <= length (questions s) ->
    pad_loop fillers s (Done s)
| pad_raise : forall s e,
    length (questions s) < 200 ->
    pad_body fillers s = Raised e ->
    pad_loop fillers s (Raised e)
| pad_iter : forall s s' r,
    length (questions s) < 200 ->
    pad_body fillers s = Done s' ->
    pad_loop fillers s' r ->
    pad_loop fillers s r.

(** [output = {"questions": questions[:200]}] (line 470). *)
Definition cap (s : state) : document :=
  {| doc_questions := firstn 200 (questions s) |}.

(** Lines 8-470: every loop, then the padding, then the cap.  The list is
    never shorter than zero, so 200 turns of the padding loop are enough
    fuel (see [generate_fuel_enough]). *)
Definition generate (c : catalog) (fillers : quint_pool) : outcome document :=
  match while_pad 200 fillers (working c) with
  | Done s => Done (cap s)
  | Raised e => Raised e
  | OutOfFuel => OutOfFuel
  end.

(** [sum(1 for q in output['questions'] if cond(q))] (lines 476-480). *)
Definition count_if (cond : question -> bool) (qs : list question) : Z :=
  py_sum (map (fun _ => 1%Z) (filter cond qs)).

(** The printed summary (lines 474-480). *)
Definition report (output : document) : summary :=
  let qs := doc_questions output in
  {| total := Z.of_nat (length qs);
     easy := count_if (fun q => String.eqb (difficulty q) "easy") qs;
     medium := count_if (fun q => String.eqb (difficulty q) "medium") qs;
     hard := count_if (fun q => String.eqb (difficulty q) "hard") qs;
     code := count_if (fun q => String.eqb (type q) "code") qs;
     names := count_if (fun q => String.eqb (type q) "name") qs |}.

(** The script on its own literals: the dumped document and the summary. *)
Definition main : outcome (document * summary) :=
  match generate source_catalog easy_fillers with
  | Done output => Done (output, report output)
  | Raised e => Raised e
  | OutOfFuel => OutOfFuel
  end.

(** ** Vocabulary of the properties *)

(** What a loop over [pool] appends when it starts with the counter at
    [qid]: the closed form of [run_stage]. *)
Fixpoint expand (X : Type) (mk : X -> Z -> question) (qid : Z)
    (pool : list X) : list question :=
  match pool with
  | [] => []
  | x :: rest => mk x qid :: expand mk (qid + 1)%Z rest
  end.

(** Number of dictionaries appended by a sequence of loops. *)
Definition offset (sts : list stage) : nat :=
  list_sum (map (fun st => length (pool st)) sts).

(** The identifiers [1, 2, ..., n]. *)
Definition ids_upto (n : nat) : list Z := map Z.of_nat (seq 1 n).

(** The identifiers of the list are dense and the counter is the next one. *)
Definition dense (s : state) : Prop :=
  map id (questions s) = ids_upto (length (questions s)) /\
  question_id s = Z.of_nat (S (length (questions s))).

(** The language rule of a record. *)
Definition language_consistent (q : question) : Prop :=
  (type q = "name" -> language q = None) /\
  (type q = "code" -> language q <> None).

(** Every dictionary built by the loop [st] satisfies [R], a relation
    between the counter at the time of the append and the dictionary. *)
Definition stage_sat (R : Z -> question -> Prop) (st : stage) : Prop :=
  forall (x : item st) (qid : Z), R qid (make st x qid).

(** The dictionary carries the counter as its ["id"]. *)
Definition stamped (qid : Z) (q : question) : Prop := id q = qid.

(** The type of a record is one of the two the script writes. *)
Definition type_known (q : question) : Prop :=
  type q = "code" \/ type q = "name".

(** Position in the list (from 0) of the first record of the O(log n) code
    loop: two loops come before it. *)
Definition ologn_code_start (c : catalog) : nat :=
  length (o1_code_snippets c) + length (o1_algorithms c).

(** Position of the first record of the O(n^2) code loop: eight loops come
    before it. *)
Definition on2_code_start (c : catalog) : nat :=
  ologn_code_start c +
  length (ologn_code_snippets c) + length (ologn_algorithms c) +
  length (on_code_snippets c) + length (on_algorithms c) +
  length (onlogn_code_snippets c) + length (onlogn_algorithms c).

(** The value of [question_id] when the loop that follows the loops [pre]
    reaches its [k]-th entry (from 0). *)
Definition counter_at (pre : list stage) (k : nat) : Z :=
  (question_id (run_stages pre init) + Z.of_nat k)%Z.

(** [s'] has the list of [s] as a prefix: nothing appended so far was
    changed or removed. *)
Definition extends (s s' : state) : Prop :=
  exists tl, questions s' = questions s ++ tl.

(** [sub] occurs in [s]. *)
Definition occurs_in (sub s : string) : Prop :=
  exists pre post, s = String.append pre (String.append sub post).

(** Counting by a scan of the array, one record at a time. *)
Fixpoint scan_count (cond : question -> bool) (qs : list question) : nat :=
  match qs with
  | [] => 0
  | q :: rest => (if cond q then 1 else 0) + scan_count cond rest
  end.

(** The summary as the specification words it: every count is obtained by
    scanning the array. *)
Definition scan_summary (qs : list question) : summary :=
  {| total := Z.of_nat (length qs);
     easy :=
       Z.of_nat (scan_count (fun q => String.eqb (difficulty q) "easy") qs);
     medium :=
       Z.of_nat (scan_count (fun q => String.eqb (difficulty q) "medium") qs);
     hard :=
       Z.of_nat (scan_count (fun q => String.eqb (difficulty q) "hard") qs);
     code := Z.of_nat (scan_count (fun q => String.eqb (type q) "code") qs);
     names := Z.of_nat (scan_count (fun q => String.eqb (type q) "name") qs)
  |}.

(** A catalog whose only non-empty pool is the first one. *)
Definition single_pool_catalog (p : pair_pool) : catalog :=
  {| o1_code_snippets := p; o1_algorithms := [];
     ologn_code_snippets := []; ologn_algorithms := [];
     on_code_snippets := []; on_algorithms := [];
     onlogn_code_snippets := []; onlogn_algorithms := [];
     on2_code_snippets := []; on2_algorithms := [];
     on3_code_snippets := []; on3_algorithms := [];
     o2n_code_snippets := []; o2n_algorithms := [];
     ofact_code_snippets := []; ofact_algorithms := [];
     cpp_questions := []; python_advanced := [];
     more_algorithms := []; mixed_questions := [] |}.

(** A catalog with a surplus: 210 working records. *)
Definition surplus_catalog : catalog :=
  single_pool_catalog (repeat ("pass", "Does nothing: O(1).") 210).

(** The [(text, explanation)] part of an entry with complexity and
    difficulty, and of an entry that also has a language. *)
Definition quad_text (x : string * string * string * string)
    : string * string :=
  let '(text, explanation, _, _) := x in (text, explanation).

Definition quint_text (x : string * string * string * string * string)
    : string * string :=
  let '(text, explanation, _, _, _) := x in (text, explanation).

(** The [(text, explanation)] pairs of a catalog, pool after pool in the
    order of the loops. *)
Definition catalog_entries (c : catalog) : list (string * string) :=
  concat
    [ o1_code_snippets c; o1_algorithms c;
      ologn_code_snippets c; ologn_algorithms c;
      on_code_snippets c; on_algorithms c;
      onlogn_code_snippets c; onlogn_algorithms c;
      on2_code_snippets c; on2_algorithms c;
      on3_code_snippets c; on3_algorithms c;
      o2n_code_snippets c; o2n_algorithms c;
      ofact_code_snippets c; ofact_algorithms c;
      map quad_text (cpp_questions c);
      map quad_text (python_advanced c);
      map quad_text (more_algorithms c);
      map quint_text (mixed_questions c) ].

(** The [(prompt, explanation)] pair a record shows. *)
Definition text_of (q : question) : string * string :=
  (prompt q, explanation q).

(** What one loop contributes to [catalog_entries]. *)
Definition stage_entries (st : stage) : list (string * string) :=
  map (fun x => text_of (make st x 0%Z)) (pool st).

(** The text of the records of a loop does not depend on the counter. *)
Definition counter_free_text (st : stage) : Prop :=
  forall (x : item st) (qid : Z),
    text_of (make st x qid) = text_of (make st x 0%Z).

(** The complexity and difficulty fields of the entries that carry them. *)
Definition quad_labels (x : string * string * string * string)
    : string * string :=
  let '(_, _, complexity, difficulty) := x in (complexity, difficulty).

Definition quint_labels (x : string * string * string * string * string)
    : string * string :=
  let '(_, _, complexity, difficulty, _) := x in (complexity, difficulty).

(** All [(complexity, difficulty)] labels a catalog supplies as data. *)
Definition catalog_labels (c : catalog) : list (string * string) :=
  map quad_labels (cpp_questions c) ++
  map quad_labels (python_advanced c) ++
  map quad_labels (more_algorithms c) ++
  map quint_labels (mixed_questions c).

(** The three difficulty tiers the summary counts. *)
Definition known_difficulty (d : string) : Prop :=
  d = "easy" \/ d = "medium" \/ d = "hard".

(** The eight complexity classes the loops write. *)
Definition known_complexity (x : string) : Prop :=
  In x ["O(1)"; "O(log n)"; "O(n)"; "O(n log n)"; "O(n²)"; "O(n³)";
        "O(2ⁿ)"; "O(n!)"].

(** A pair of labels from the closed sets, and the labels of a record. *)
Definition known_labels (l : string * string) : Prop :=
  known_complexity (fst l) /\ known_difficulty (snd l).

Definition labels_of (q : question) : string * string :=
  (correct_complexity q, difficulty q).

(** Two records that differ at most in their ["id"]. *)
Definition same_content (q1 q2 : question) : Prop :=
  type q1 = type q2 /\ language q1 = language q2 /\
  prompt q1 = prompt q2 /\
  correct_complexity q1 = correct_complexity q2 /\
  explanation q1 = explanation q2 /\ difficulty q1 = difficulty q2 /\
  highlight_spans q1 = highlight_spans q2.

(** A catalog of exactly 200 working records. *)
Definition exact_catalog : catalog :=
  single_pool_catalog (repeat ("pass", "Does nothing: O(1).") 200).

(** ** Loops only append *)

Lemma expand_length (X : Type) (mk : X -> Z -> question) (pool : list X) :
  forall qid, length (expand mk qid pool) = length pool.
Proof.
  induction pool as [|x rest IH]; intros qid; cbn [expand length].
  - reflexivity.
  - now rewrite IH.
Qed.

Lemma nth_error_expand (X : Type) (mk : X -> Z -> question) (pool : list X) :
  forall qid k x,
    nth_error pool k = Some x ->
    nth_error (expand mk qid pool) k = Some (mk x (qid + Z.of_nat k)%Z).
Proof.
  induction pool as [|y rest IH]; intros qid k x Hk.
  - destruct k; discriminate.
  - destruct k as [|k]; cbn [expand nth_error] in *.
    + injection Hk as ->. now rewrite Z.add_0_r.
    + rewrite (IH _ _ _ Hk). do 2 f_equal. lia.
Qed.

Lemma for_each_emit (X : Type) (mk : X -> Z -> question) (pool : list X) :
  forall s,
    for_each (fun x => emit (mk x)) pool s =
    {| questions := questions s ++ expand mk (question_id s) pool;
       question_id := (question_id s + Z.of_nat (length pool))%Z |}.
Proof.
  unfold for_each.
  induction pool as [|x rest IH]; intros s; cbn [fold_left expand length].
  - destruct s as [qs n]; cbn [questions question_id].
    now rewrite app_nil_r, Z.add_0_r.
  - rewrite IH. unfold emit; cbn [questions question_id].
    rewrite <- app_assoc, Nat2Z.inj_succ. cbn [app]. f_equal. lia.
Qed.

Lemma run_stage_questions (st : stage) (s : state) :
  questions (run_stage st s) =
  questions s ++ expand (make st) (question_id s) (pool st).
Proof. unfold run_stage. now rewrite for_each_emit. Qed.

Lemma run_stage_question_id (st : stage) (s : state) :
  question_id (run_stage st s) =
  (question_id s + Z.of_nat (length (pool st)))%Z.
Proof. unfold run_stage. now rewrite for_each_emit. Qed.

Lemma run_stage_length (st : stage) (s : state) :
  length (questions (run_stage st s)) =
  length (questions s) + length (pool st).
Proof. now rewrite run_stage_questions, length_app, expand_length. Qed.

Lemma run_stages_app (a b : list stage) (s : state) :
  run_stages (a ++ b) s = run_stages b (run_stages a s).
Proof. unfold run_stages. apply fold_left_app. Qed.

Lemma run_stages_length (sts : list stage) :
  forall s,
    length (questions (run_stages sts s)) = length (questions s) + offset sts.
Proof.
  unfold run_stages, offset, list_sum.
  induction sts as [|st rest IH]; intros s; cbn [fold_left map fold_right].
  - lia.
  - rewrite IH, run_stage_length. lia.
Qed.

Lemma run_stages_question_id (sts : list stage) :
  forall s,
    question_id (run_stages sts s) =
    (question_id s + Z.of_nat (offset sts))%Z.
Proof.
  unfold run_stages, offset, list_sum.
  induction sts as [|st rest IH]; intros s; cbn [fold_left map fold_right].
  - lia.
  - rewrite IH, run_stage_question_id. lia.
Qed.

Lemma extends_refl (s : state) : extends s s.
Proof. exists []. now rewrite app_nil_r. Qed.

Lemma extends_trans (a b c : state) : extends a b -> extends b c -> extends a c.
Proof.
  intros [t1 H1] [t2 H2]. exists (t1 ++ t2).
  now rewrite H2, H1, app_assoc.
Qed.

Lemma extends_emit (mk : Z -> question) (s : state) : extends s (emit mk s).
Proof. now exists [mk (question_id s)]. Qed.

Lemma extends_run_stage (st : stage) (s : state) : extends s (run_stage st s).
Proof. eexists. apply run_stage_questions. Qed.

Lemma extends_run_stages (sts : list stage) :
  forall s, extends s (run_stages sts s).
Proof.
  unfold run_stages.
  induction sts as [|st rest IH]; intros s; cbn [fold_left].
  - apply extends_refl.
  - eapply extends_trans; [apply extends_run_stage | apply IH].
Qed.

Lemma extends_nth_error (s s' : state) (i : nat) (q : question) :
  extends s s' ->
  nth_error (questions s) i = Some q ->
  nth_error (questions s') i = Some q.
Proof.
  intros [tl ->] H. rewrite nth_error_app1; [exact H|].
  apply nth_error_Some. congruence.
Qed.

Lemma extends_length (s s' : state) :
  extends s s' -> length (questions s) <= length (questions s').
Proof. intros [tl ->]. rewrite length_app. lia. Qed.

(** ** The padding loop *)

Lemma while_pad_eq (fuel : nat) (fillers : quint_pool) (s : state) :
  while_pad fuel fillers s =
  if (length (questions s) <? 200)%nat then
    match fuel with
    | O => OutOfFuel
    | S fuel' =>
        match pad_body fillers s with
        | Done s' => while_pad fuel' fillers s'
        | Raised e => Raised e
        | OutOfFuel => OutOfFuel
        end
    end
  else Done s.
Proof. destruct fuel; reflexivity. Qed.

Lemma emit_length (mk : Z -> question) (s : state) :
  length (questions (emit mk s)) = S (length (questions s)).
Proof. unfold emit; cbn [questions]. rewrite length_app. cbn [length]. lia. Qed.

Lemma pad_body_nonempty (fillers : quint_pool) (s : state) :
  fillers <> [] ->
  exists f,
    nth_error fillers (length (questions s) mod length fillers) = Some f /\
    pad_body fillers s = Done (emit (filler_question f) s).
Proof.
  intros Hne. unfold pad_body.
  destruct fillers as [|f0 rest]; [congruence|].
  remember (f0 :: rest) as fillers eqn:E.
  assert (Hpos : length fillers <> 0) by (subst fillers; discriminate).
  assert (Hlt : length (questions s) mod length fillers < length fillers)
    by (apply Nat.mod_upper_bound; exact Hpos).
  destruct (length fillers) as [|m] eqn:Hm; [congruence|].
  destruct (nth_error fillers (length (questions s) mod S m)) as [f|] eqn:Hf.
  - exists f. split; reflexivity.
  - apply nth_error_None in Hf. lia.
Qed.

Lemma pad_body_Done_inv (fillers : quint_pool) (s s' : state) :
  pad_body fillers s = Done s' ->
  exists f,
    nth_error fillers (length (questions s) mod length fillers) = Some f /\
    s' = emit (filler_question f) s.
Proof.
  unfold pad_body. destruct (length fillers) as [|m]; [discriminate|].
  destruct (nth_error fillers (length (questions s) mod S m)) as [f|];
    [|discriminate].
  intros H. injection H as <-. now exists f.
Qed.

Lemma pad_body_length (fillers : quint_pool) (s s' : state) :
  pad_body fillers s = Done s' ->
  length (questions s') = S (length (questions s)).
Proof.
  intros H. apply pad_body_Done_inv in H as [f [_ ->]]. apply emit_length.
Qed.

Lemma pad_body_never_out_of_fuel (fillers : quint_pool) (s : state) :
  pad_body fillers s <> OutOfFuel.
Proof.
  unfold pad_body. destruct (length fillers); [discriminate|].
  destruct (nth_error _ _); discriminate.
Qed.

(** A list of 200 or more entries leaves the loop at once, whatever the
    fuel and the pool. *)
Lemma while_pad_long (fuel : nat) (fillers : quint_pool) (s : state) :
  200 <= length (questions s) -> while_pad fuel fillers s = Done s.
Proof.
  intros H. rewrite while_pad_eq.
  destruct (Nat.ltb_spec (length (questions s)) 200); [lia | reflexivity].
Qed.

(** The rule of the loop: an invariant of the body holds at the exit, which
    is reached with [200 - len(questions)] units of fuel. *)
Lemma while_pad_rule (Inv : state -> Prop) (fillers : quint_pool) :
  fillers <> [] ->
  (forall s f,
      Inv s ->
      length (questions s) < 200 ->
      nth_error fillers (length (questions s) mod length fillers) = Some f ->
      Inv (emit (filler_question f) s)) ->
  forall fuel s,
    Inv s ->
    200 - length (questions s) <= fuel ->
    exists s',
      while_pad fuel fillers s = Done s' /\
      Inv s' /\
      200 <= length (questions s').
Proof.
  intros Hne Hstep fuel.
  induction fuel as [|fuel IH]; intros s HI Hfuel; rewrite while_pad_eq;
    destruct (Nat.ltb_spec (length (questions s)) 200) as [Hlt|Hge];
    try lia; try (exists s; repeat split; assumption).
  destruct (pad_body_nonempty s Hne) as [f [Hf Hb]]. rewrite Hb.
  apply IH.
  - now apply Hstep.
  - rewrite emit_length. lia.
Qed.

(** The fuelled loop and the relation agree. *)
Lemma while_pad_sound (fillers : quint_pool) (fuel : nat) :
  forall s r,
    while_pad fuel fillers s = r -> r <> OutOfFuel -> pad_loop fillers s r.
Proof.
  induction fuel as [|fuel IH]; intros s r; rewrite while_pad_eq;
    destruct (Nat.ltb_spec (length (questions s)) 200) as [Hlt|Hge];
    intros <- Hr; try congruence; try (now apply pad_exit).
  destruct (pad_body fillers s) as [s'| e |] eqn:Hb; try congruence.
  - eapply pad_iter; eauto.
  - now apply pad_raise.
Qed.

Lemma pad_loop_functional (fillers : quint_pool) (s : state)
    (r1 r2 : outcome state) :
  pad_loop fillers s r1 -> pad_loop fillers s r2 -> r1 = r2.
Proof.
  intros H1. revert r2.
  induction H1 as [s Hge | s e Hlt Hb | s s' r Hlt Hb Hrest IH];
    intros r2 H2; inversion H2; subst; try lia; try congruence.
  apply IH. congruence.
Qed.

Lemma pad_loop_never_out_of_fuel (fillers : quint_pool) (s : state)
    (r : outcome state) :
  pad_loop fillers s r -> r <> OutOfFuel.
Proof. induction 1; congruence. Qed.

Lemma pad_loop_fuel (fillers : quint_pool) (s : state) (r : outcome state) :
  pad_loop fillers s r ->
  forall fuel, 200 - length (questions s) <= fuel ->
    while_pad fuel fillers s = r.
Proof.
  induction 1 as [s Hge | s e Hlt Hb | s s' r Hlt Hb Hrest IH];
    intros fuel Hfuel; rewrite while_pad_eq;
    destruct (Nat.ltb_spec (length (questions s)) 200); try lia;
    try reflexivity;
    (destruct fuel as [|fuel]; [lia|]); rewrite Hb; [reflexivity|].
  apply IH. rewrite (pad_body_length _ _ Hb). lia.
Qed.

(** The 200 units of fuel of [generate] are enough for every catalog. *)
Lemma generate_fuel_enough (c : catalog) (fillers : quint_pool) :
  generate c fillers <> OutOfFuel /\
  forall fuel, 200 <= fuel ->
    while_pad fuel fillers (working c) = while_pad 200 fillers (working c).
Proof.
  assert (Hrel : forall fuel, 200 <= fuel ->
            while_pad fuel fillers (working c) <> OutOfFuel).
  { intros fuel Hfuel. revert Hfuel. generalize (working c) as s.
    assert (G : forall n s, 200 - length (questions s) <= n ->
              while_pad n fillers s <> OutOfFuel).
    { induction n as [|n IH]; intros s Hn; rewrite while_pad_eq;
        destruct (Nat.ltb_spec (length (questions s)) 200); try lia;
        try discriminate.
      destruct (pad_body fillers s) as [s'| e |] eqn:Hb; try discriminate.
      - apply IH. rewrite (pad_body_length _ _ Hb). lia.
      - now apply pad_body_never_out_of_fuel in Hb. }
    intros s Hfuel. apply G. lia. }
  split.
  - unfold generate. specialize (Hrel 200 (le_n _)).
    destruct (while_pad 200 fillers (working c)); congruence.
  - intros fuel Hfuel.
    apply pad_loop_fuel; [|lia].
    apply while_pad_sound with (fuel := 200); [reflexivity | now apply Hrel].
Qed.

Lemma while_pad_short (fillers : quint_pool) :
  fillers <> [] ->
  forall fuel s,
    fuel < 200 - length (questions s) ->
    while_pad fuel fillers s = OutOfFuel.
Proof.
  intros Hne fuel.
  induction fuel as [|fuel IH]; intros s Hfuel; rewrite while_pad_eq;
    destruct (Nat.ltb_spec (length (questions s)) 200); try lia;
    try reflexivity.
  destruct (pad_body_nonempty s Hne) as [f [_ ->]].
  apply IH. rewrite emit_length. lia.
Qed.

Lemma easy_fillers_nonempty : easy_fillers <> [].
Proof. discriminate. Qed.

(** The padding loop on a non-empty pool: it stops, on a list that extends
    the starting one and has [max 200 len] entries. *)
Lemma while_pad_total (fillers : quint_pool) (s : state) :
  fillers <> [] ->
  exists s',
    (forall fuel, 200 - length (questions s) <= fuel ->
       while_pad fuel fillers s = Done s') /\
    extends s s' /\
    length (questions s') = Nat.max 200 (length (questions s)).
Proof.
  intros Hne.
  destruct (@while_pad_rule
              (fun s' => extends s s' /\
                 length (questions s') <= Nat.max 200 (length (questions s)))
              fillers Hne) with (fuel := 200 - length (questions s)) (s := s)
    as [s' [Hrun [[Hext Hle] Hge]]].
  - intros s0 f [Hext Hle] Hlt _. split.
    + eapply extends_trans; [exact Hext | apply extends_emit].
    + rewrite emit_length. lia.
  - split; [apply extends_refl | lia].
  - lia.
  - exists s'. repeat split.
    + intros fuel Hfuel. apply pad_loop_fuel; [|exact Hfuel].
      eapply while_pad_sound; [exact Hrun | discriminate].
    + exact Hext.
    + apply extends_length in Hext. lia.
Qed.

(** C10: the padding loop terminates from every starting state.  One turn of
    the body always succeeds and appends exactly one record; the loop takes
    exactly [200 - len(questions)] turns (none when the list already has 200
    or more records, in which case the state is returned unchanged), and
    ends on a list of [max 200 len] records. *)
Theorem padding_loop_terminates (s : state) :
  (exists s1,
      pad_body easy_fillers s = Done s1 /\
      length (questions s1) = S (length (questions s))) /\
  (exists s',
      pad_loop easy_fillers s (Done s') /\
      (forall fuel,
          while_pad fuel easy_fillers s =
          if (200 - length (questions s) <=? fuel)%nat then Done s'
          else OutOfFuel) /\
      length (questions s') = Nat.max 200 (length (questions s)) /\
      (200 <= length (questions s) -> s' = s)).
Proof.
  split.
  - destruct (pad_body_nonempty s easy_fillers_nonempty) as [f [_ Hb]].
    eexists; split; [exact Hb | apply emit_length].
  - destruct (while_pad_total s easy_fillers_nonempty)
      as [s' [Hrun [Hext Hlen]]].
    exists s'. repeat split.
    + eapply while_pad_sound; [apply Hrun; reflexivity | discriminate].
    + intros fuel.
      destruct (Nat.leb_spec (200 - length (questions s)) fuel) as [Hle|Hlt].
      * now apply Hrun.
      * now apply while_pad_short; [apply easy_fillers_nonempty|].
    + exact Hlen.
    + intros Hge. specialize (Hrun 0 ltac:(lia)).
      rewrite while_pad_long in Hrun by exact Hge. congruence.
Qed.

(** ** Size of the output *)

Lemma cap_length (s : state) :
  200 <= length (questions s) -> length (doc_questions (cap s)) = 200.
Proof.
  intros H. unfold cap; cbn [doc_questions]. rewrite length_firstn. lia.
Qed.

(** [generate] on a non-empty pool: the state at the exit of the loop. *)
Lemma generate_total (c : catalog) (fillers : quint_pool) :
  fillers <> [] ->
  exists s',
    generate c fillers = Done (cap s') /\
    pad_loop fillers (working c) (Done s') /\
    extends (working c) s' /\
    length (questions s') = Nat.max 200 (length (questions (working c))).
Proof.
  intros Hne.
  destruct (while_pad_total (working c) Hne) as [s' [Hrun [Hext Hlen]]].
  exists s'. repeat split; try assumption.
  - unfold generate. rewrite Hrun by lia. reflexivity.
  - eapply while_pad_sound; [apply Hrun; reflexivity | discriminate].
Qed.

(** C1: for every catalog (every length of the working corpus) and every
    non-empty filler pool, the run ends normally and the [questions] array of
    the output document has exactly 200 records. *)
Theorem output_has_exactly_200_records (c : catalog) (fillers : quint_pool) :
  fillers <> [] ->
  exists output,
    generate c fillers = Done output /\
    length (doc_questions output) = 200.
Proof.
  intros Hne.
  destruct (generate_total c Hne) as [s' [Hgen [_ [_ Hlen]]]].
  exists (cap s'). split; [exact Hgen|].
  apply cap_length. lia.
Qed.

(** C1 on the literals of the script: 97 working records, a filler pool of
    five entries, and 200 records in the document that [main] dumps. *)
Lemma output_has_exactly_200_records_source :
  length (questions (working source_catalog)) = 97 /\
  easy_fillers <> [] /\
  exists output,
    generate source_catalog easy_fillers = Done output /\
    length (doc_questions output) = 200.
Proof.
  split; [vm_compute; reflexivity|].
  split; [discriminate|].
  apply (@output_has_exactly_200_records source_catalog easy_fillers).
  discriminate.
Defined.

(** ** Invariants of the loops *)

(** Destructs the tuple a dictionary display takes apart. *)
Ltac split_entry :=
  repeat match goal with
         | x : (_ * _)%type |- _ => destruct x
         end.

(** Every loop of the script builds dictionaries that satisfy [R], when
    [R] holds by computation of each display. *)
Ltac all_stages :=
  unfold stages;
  repeat (apply Forall_cons; [intros x qid; cbn in x; split_entry|]);
  try apply Forall_nil.

Lemma for_each_preserves (X : Type) (P : state -> Prop)
    (body : X -> state -> state) (pool : list X) :
  (forall x s, P s -> P (body x s)) ->
  forall s, P s -> P (for_each body pool s).
Proof.
  intros Hbody. unfold for_each.
  induction pool as [|x rest IH]; intros s Hs; cbn [fold_left]; auto.
Qed.

Lemma run_stages_preserves (P : state -> Prop) (sts : list stage) :
  Forall (fun st => forall x s, P s -> P (emit (make st x) s)) sts ->
  forall s, P s -> P (run_stages sts s).
Proof.
  unfold run_stages.
  induction 1 as [|st rest Hst _ IH]; intros s Hs; cbn [fold_left]; auto.
  apply IH. unfold run_stage. now apply for_each_preserves.
Qed.

Lemma stages_stamped (c : catalog) : Forall (stage_sat stamped) (stages c).
Proof. all_stages; reflexivity. Qed.

Lemma filler_question_stamped (f : string * string * string * string * string)
    (qid : Z) :
  stamped qid (filler_question f qid).
Proof. split_entry. reflexivity. Qed.

(** *** Dense identifiers *)

Lemma ids_upto_S (n : nat) : ids_upto (S n) = ids_upto n ++ [Z.of_nat (S n)].
Proof. unfold ids_upto. now rewrite seq_S, map_app. Qed.

Lemma firstn_ids_upto (n m : nat) :
  n <= m -> firstn n (ids_upto m) = ids_upto n.
Proof.
  intros H. unfold ids_upto. rewrite firstn_map. f_equal.
  replace m with (n + (m - n)) by lia.
  rewrite seq_app, firstn_app, length_seq, Nat.sub_diag, firstn_O, app_nil_r.
  apply firstn_all2. rewrite length_seq. lia.
Qed.

Lemma in_ids_upto (n : nat) (i : Z) :
  In i (ids_upto n) <-> (1 <= i <= Z.of_nat n)%Z.
Proof.
  unfold ids_upto. rewrite in_map_iff. split.
  - intros [k [<- Hk]]. apply in_seq in Hk. lia.
  - intros Hi. exists (Z.to_nat i). split; [lia|]. apply in_seq. lia.
Qed.

Lemma ids_from_sorted (n : nat) :
  forall a, StronglySorted Z.lt (map Z.of_nat (seq a n)).
Proof.
  induction n as [|n IH]; intros a; cbn [seq map]; constructor.
  - apply IH.
  - apply Forall_forall. intros i Hi.
    apply in_map_iff in Hi as [k [<- Hk]]. apply in_seq in Hk. lia.
Qed.

Lemma ids_upto_NoDup (n : nat) : NoDup (ids_upto n).
Proof.
  unfold ids_upto. apply Injective_map_NoDup.
  - intros a b. apply Nat2Z.inj.
  - apply seq_NoDup.
Qed.

Lemma dense_init : dense init.
Proof. split; reflexivity. Qed.

Lemma dense_emit (mk : Z -> question) (s : state) :
  stamped (question_id s) (mk (question_id s)) ->
  dense s -> dense (emit mk s).
Proof.
  unfold stamped. intros Hid [Hids Hnext]. split.
  - rewrite emit_length, ids_upto_S. unfold emit; cbn [questions].
    rewrite map_app, Hids. cbn [map]. now rewrite Hid, Hnext.
  - rewrite emit_length. unfold emit; cbn [question_id]. lia.
Qed.

Lemma dense_working (c : catalog) : dense (working c).
Proof.
  unfold working. apply run_stages_preserves; [|apply dense_init].
  eapply Forall_impl; [|apply stages_stamped].
  intros st Hst x s Hs. apply dense_emit; [apply Hst | exact Hs].
Qed.

Lemma dense_cap (s : state) :
  dense s -> 200 <= length (questions s) ->
  map id (doc_questions (cap s)) = ids_upto 200.
Proof.
  intros [Hids _] Hlen. unfold cap; cbn [doc_questions].
  rewrite <- firstn_map, Hids. now apply firstn_ids_upto.
Qed.

(** The state at the exit of the padding loop, with an invariant of the
    appends carried from the working corpus to it. *)
Lemma generate_rule (Inv : state -> Prop) (c : catalog)
    (fillers : quint_pool) :
  fillers <> [] ->
  Inv (working c) ->
  (forall s f,
      Inv s ->
      length (questions s) < 200 ->
      nth_error fillers (length (questions s) mod length fillers) = Some f ->
      Inv (emit (filler_question f) s)) ->
  exists s',
    generate c fillers = Done (cap s') /\
    Inv s' /\
    200 <= length (questions s').
Proof.
  intros Hne H0 Hstep.
  destruct (@while_pad_rule Inv fillers Hne Hstep) with (fuel := 200)
    (s := working c) as [s' [Hrun [HI Hge]]]; try assumption; try lia.
  exists s'. unfold generate. rewrite Hrun. auto.
Qed.

(** C2: for every catalog and every non-empty filler pool - whether the
    working corpus had to be padded, was cut, or had just 200 records - the
    identifiers of the output are 1, 2, ..., 200 in this order: strictly
    increasing, without repeats, and exactly the integers from 1 to 200. *)
Theorem output_ids_are_1_to_200 (c : catalog) (fillers : quint_pool) :
  fillers <> [] ->
  exists output,
    generate c fillers = Done output /\
    map id (doc_questions output) = ids_upto 200 /\
    Permutation (map id (doc_questions output)) (ids_upto 200) /\
    StronglySorted Z.lt (map id (doc_questions output)) /\
    NoDup (map id (doc_questions output)) /\
    (forall i, In i (map id (doc_questions output)) <-> (1 <= i <= 200)%Z).
Proof.
  intros Hne.
  destruct (@generate_rule dense c fillers Hne (dense_working c))
    as [s' [Hgen [Hdense Hge]]].
  - intros s f Hs _ _.
    apply dense_emit; [apply filler_question_stamped | exact Hs].
  - exists (cap s'). split; [exact Hgen|].
    rewrite (dense_cap Hdense Hge).
    split; [reflexivity|]. split; [apply Permutation_refl|].
    split; [apply ids_from_sorted|]. split; [apply ids_upto_NoDup|].
    intros i. rewrite in_ids_upto. lia.
Qed.

(** C2 on the literals of the script. *)
Lemma output_ids_are_1_to_200_source :
  easy_fillers <> [] /\
  exists output,
    generate source_catalog easy_fillers = Done output /\
    map id (doc_questions output) = ids_upto 200 /\
    Permutation (map id (doc_questions output)) (ids_upto 200) /\
    StronglySorted Z.lt (map id (doc_questions output)) /\
    NoDup (map id (doc_questions output)) /\
    (forall i, In i (map id (doc_questions output)) <-> (1 <= i <= 200)%Z).
Proof.
  split; [discriminate|].
  apply (@output_ids_are_1_to_200 source_catalog easy_fillers).
  discriminate.
Defined.

(** *** Language of a record *)

Ltac by_display :=
  cbn; intros; first [reflexivity | discriminate | tauto].

Lemma stages_language (c : catalog) :
  Forall (stage_sat (fun _ q => language_consistent q /\ type_known q))
    (stages c).
Proof.
  all_stages; (split; [split; by_display | unfold type_known; by_display]).
Qed.

Lemma filler_question_language
    (f : string * string * string * string * string) (qid : Z) :
  language_consistent (filler_question f qid) /\
  type_known (filler_question f qid).
Proof.
  split_entry. split; [split; by_display | unfold type_known; by_display].
Qed.

Lemma Forall_emit (P : question -> Prop) (mk : Z -> question) (s : state) :
  P (mk (question_id s)) ->
  Forall P (questions s) -> Forall P (questions (emit mk s)).
Proof.
  intros Hq Hs. unfold emit; cbn [questions].
  apply Forall_app. split; [exact Hs | now constructor].
Qed.

Lemma Forall_cap (P : question -> Prop) (s : state) :
  Forall P (questions s) -> Forall P (doc_questions (cap s)).
Proof.
  intros H. unfold cap; cbn [doc_questions].
  rewrite <- (firstn_skipn 200 (questions s)) in H.
  now apply Forall_app in H.
Qed.

(** Every record of the output was built by one of the displays: a
    property of all displays is a property of all output records. *)
Lemma generate_Forall (P : question -> Prop) (c : catalog)
    (fillers : quint_pool) :
  fillers <> [] ->
  Forall (stage_sat (fun _ q => P q)) (stages c) ->
  (forall f qid, P (filler_question f qid)) ->
  exists output,
    generate c fillers = Done output /\
    length (doc_questions output) = 200 /\
    Forall P (doc_questions output).
Proof.
  intros Hne Hst Hfill.
  destruct (@generate_rule (fun s => Forall P (questions s)) c fillers Hne)
    as [s' [Hgen [HP Hge]]].
  - unfold working. apply run_stages_preserves; [|constructor].
    eapply Forall_impl; [|exact Hst].
    intros st H x s Hs. apply Forall_emit; [apply H | exact Hs].
  - intros s f Hs _ _. apply Forall_emit; [apply Hfill | exact Hs].
  - exists (cap s'). split; [exact Hgen|].
    split; [now apply cap_length | now apply Forall_cap].
Qed.

(** C4: for every catalog and every non-empty filler pool, every record of
    the output has type "code" or "name"; a "name" record has no language
    and a "code" record has one. *)
Theorem output_language_consistent (c : catalog) (fillers : quint_pool) :
  fillers <> [] ->
  exists output,
    generate c fillers = Done output /\
    length (doc_questions output) = 200 /\
    Forall (fun q => language_consistent q /\ type_known q)
      (doc_questions output).
Proof.
  intros Hne. apply generate_Forall.
  - exact Hne.
  - apply stages_language.
  - apply filler_question_language.
Qed.

(** C4 on the literals of the script. *)
Lemma output_language_consistent_source :
  easy_fillers <> [] /\
  exists output,
    generate source_catalog easy_fillers = Done output /\
    length (doc_questions output) = 200 /\
    Forall (fun q => language_consistent q /\ type_known q)
      (doc_questions output).
Proof.
  split; [discriminate|].
  apply (@output_language_consistent source_catalog easy_fillers).
  discriminate.
Defined.

(** ** Truncation *)

Lemma dense_nth_error (s : state) (i : nat) (q : question) :
  dense s ->
  nth_error (questions s) i = Some q ->
  id q = Z.of_nat (S i).
Proof.
  intros [Hids _] Hq.
  assert (Hlt : i < length (questions s))
    by (apply nth_error_Some; congruence).
  apply (map_nth_error id) in Hq. rewrite Hids in Hq.
  unfold ids_upto in Hq. rewrite nth_error_map, nth_error_seq in Hq.
  apply Nat.ltb_lt in Hlt. rewrite Hlt in Hq. cbn [option_map] in Hq.
  injection Hq as Hq. symmetry. exact Hq.
Qed.

(** C5: when the working corpus has more than 200 records, whatever the
    filler pool, the output is the first 200 working records in their order
    (position by position), the working corpus is the output followed by the
    dropped records, and no dropped record occurs in the output. *)
Theorem surplus_is_truncated (c : catalog) (fillers : quint_pool) :
  200 < length (questions (working c)) ->
  exists output,
    generate c fillers = Done output /\
    length (doc_questions output) = 200 /\
    doc_questions output = firstn 200 (questions (working c)) /\
    questions (working c) =
      doc_questions output ++ skipn 200 (questions (working c)) /\
    (forall i, i < 200 ->
       nth_error (doc_questions output) i =
       nth_error (questions (working c)) i) /\
    (forall q, In q (skipn 200 (questions (working c))) ->
       ~ In q (doc_questions output)).
Proof.
  intros Hlen. exists (cap (working c)).
  split; [unfold generate; rewrite while_pad_long by lia; reflexivity|].
  split; [apply cap_length; lia|].
  split; [reflexivity|].
  split; [unfold cap; cbn [doc_questions]; now rewrite firstn_skipn|].
  split.
  - intros i Hi. unfold cap; cbn [doc_questions].
    rewrite nth_error_firstn. apply Nat.ltb_lt in Hi. now rewrite Hi.
  - intros q Hdrop Hkept.
    apply In_nth_error in Hdrop as [i Hi]. rewrite nth_error_skipn in Hi.
    apply In_nth_error in Hkept as [j Hj].
    unfold cap in Hj; cbn [doc_questions] in Hj.
    rewrite nth_error_firstn in Hj.
    destruct (Nat.ltb_spec j 200) as [Hlt|]; [|discriminate].
    pose proof (dense_nth_error _ (dense_working c) Hi) as Ei.
    pose proof (dense_nth_error _ (dense_working c) Hj) as Ej.
    lia.
Qed.

(** C5 on a catalog of 210 working records. *)
Lemma surplus_is_truncated_at_210 :
  length (questions (working surplus_catalog)) = 210 /\
  exists output,
    generate surplus_catalog easy_fillers = Done output /\
    length (doc_questions output) = 200 /\
    doc_questions output = firstn 200 (questions (working surplus_catalog)) /\
    questions (working surplus_catalog) =
      doc_questions output ++ skipn 200 (questions (working surplus_catalog)) /\
    (forall i, i < 200 ->
       nth_error (doc_questions output) i =
       nth_error (questions (working surplus_catalog)) i) /\
    (forall q, In q (skipn 200 (questions (working surplus_catalog))) ->
       ~ In q (doc_questions output)).
Proof.
  split; [vm_compute; reflexivity|].
  apply (@surplus_is_truncated surplus_catalog easy_fillers).
  apply Nat.ltb_lt. vm_compute. reflexivity.
Defined.

(** ** Padding *)

Lemma nth_error_emit_last (mk : Z -> question) (s : state) :
  nth_error (questions (emit mk s)) (length (questions s)) =
  Some (mk (question_id s)).
Proof.
  unfold emit; cbn [questions].
  rewrite nth_error_app2, Nat.sub_diag by lia. reflexivity.
Qed.

Lemma nth_error_cap (s : state) (i : nat) :
  i < 200 -> nth_error (doc_questions (cap s)) i = nth_error (questions s) i.
Proof.
  intros Hi. unfold cap; cbn [doc_questions].
  rewrite nth_error_firstn. apply Nat.ltb_lt in Hi. now rewrite Hi.
Qed.

Lemma firstn_extends (s s' : state) :
  extends s s' ->
  firstn (length (questions s)) (questions s') = questions s.
Proof.
  intros [tl ->].
  rewrite firstn_app, Nat.sub_diag, firstn_O, app_nil_r. apply firstn_all.
Qed.

(** What the padding loop appends: the record at position [n + k], for [n]
    the length of the working corpus, is built from the filler at index
    [(n + k) % len(fillers)] with the counter at [n + k + 1]. *)
Lemma generate_padding (c : catalog) (fillers : quint_pool) :
  fillers <> [] ->
  exists s',
    generate c fillers = Done (cap s') /\
    extends (working c) s' /\
    200 <= length (questions s') /\
    forall k,
      length (questions (working c)) + k < length (questions s') ->
      exists f,
        nth_error fillers
          ((length (questions (working c)) + k) mod length fillers) = Some f /\
        nth_error (questions s') (length (questions (working c)) + k) =
          Some (filler_question f
                  (Z.of_nat (length (questions (working c)) + k + 1))).
Proof.
  intros Hne.
  set (n := length (questions (working c))).
  destruct (@generate_rule
              (fun s =>
                 dense s /\ extends (working c) s /\
                 forall k, n + k < length (questions s) ->
                   exists f,
                     nth_error fillers ((n + k) mod length fillers) = Some f /\
                     nth_error (questions s) (n + k) =
                       Some (filler_question f (Z.of_nat (n + k + 1))))
              c fillers Hne) as [s' [Hgen [[_ [Hext Hfill]] Hge]]].
  - split; [apply dense_working|]. split; [apply extends_refl|].
    intros k Hk. fold n in Hk. lia.
  - intros s f [Hdense [Hext Hfill]] Hlt Hf.
    split; [apply dense_emit; [apply filler_question_stamped | exact Hdense]|].
    split; [eapply extends_trans; [exact Hext | apply extends_emit]|].
    intros k Hk. rewrite emit_length in Hk.
    pose proof (extends_length Hext) as Hn. fold n in Hn.
    destruct (Nat.eq_dec (n + k) (length (questions s))) as [E|NE].
    + exists f. rewrite E. split; [exact Hf|].
      rewrite nth_error_emit_last. destruct Hdense as [_ ->].
      do 2 f_equal. lia.
    + destruct (Hfill k ltac:(lia)) as [g [Hg Hq]].
      exists g. split; [exact Hg|].
      eapply extends_nth_error; [apply extends_emit | exact Hq].
  - exists s'. auto.
Qed.

(** C3, as the code has it: when the working corpus has [n < 200] records,
    the output starts with the working corpus, and for every non-empty
    filler pool the [k]-th appended record ([k] from 0) is built from the
    filler at index [(n + k) % len(fillers)] - the length of the list at the
    time of the append - and carries the id [n + k + 1].  The fillers are
    taken in cyclic order, starting at index [n % len(fillers)]; this is
    index [k % len(fillers)] when [len(fillers)] divides [n]. *)
Theorem padding_cycles_by_list_length (c : catalog) (fillers : quint_pool) :
  fillers <> [] ->
  length (questions (working c)) < 200 ->
  exists output,
    generate c fillers = Done output /\
    firstn (length (questions (working c))) (doc_questions output) =
      questions (working c) /\
    forall k,
      length (questions (working c)) + k < 200 ->
      exists f,
        nth_error fillers
          ((length (questions (working c)) + k) mod length fillers) = Some f /\
        nth_error (doc_questions output) (length (questions (working c)) + k) =
          Some (filler_question f
                  (Z.of_nat (length (questions (working c)) + k + 1))) /\
        (length (questions (working c)) mod length fillers = 0 ->
         nth_error fillers (k mod length fillers) = Some f).
Proof.
  intros Hne Hshort.
  destruct (generate_padding c Hne) as [s' [Hgen [Hext [Hge Hfill]]]].
  exists (cap s'). split; [exact Hgen|]. split.
  - unfold cap; cbn [doc_questions].
    rewrite firstn_firstn, Nat.min_l by lia. now apply firstn_extends.
  - intros k Hk. destruct (Hfill k ltac:(lia)) as [f [Hf Hq]].
    exists f. split; [exact Hf|]. split.
    + rewrite nth_error_cap by exact Hk. exact Hq.
    + intros Hdiv. rewrite <- Hf. f_equal.
      rewrite Nat.Div0.add_mod, Hdiv, Nat.add_0_l.
      now rewrite Nat.Div0.mod_mod.
Qed.

(** C3 on the literals of the script: 97 working records, five fillers. *)
Lemma padding_cycles_by_list_length_source :
  easy_fillers <> [] /\
  length (questions (working source_catalog)) < 200 /\
  exists output,
    generate source_catalog easy_fillers = Done output /\
    firstn (length (questions (working source_catalog)))
      (doc_questions output) = questions (working source_catalog) /\
    forall k,
      length (questions (working source_catalog)) + k < 200 ->
      exists f,
        nth_error easy_fillers
          ((length (questions (working source_catalog)) + k)
             mod length easy_fillers) = Some f /\
        nth_error (doc_questions output)
          (length (questions (working source_catalog)) + k) =
          Some (filler_question f
                  (Z.of_nat
                     (length (questions (working source_catalog)) + k + 1))) /\
        (length (questions (working source_catalog))
           mod length easy_fillers = 0 ->
         nth_error easy_fillers (k mod length easy_fillers) = Some f).
Proof.
  split; [discriminate|].
  assert (H : length (questions (working source_catalog)) < 200)
    by (apply Nat.ltb_lt; vm_compute; reflexivity).
  split; [exact H|].
  apply (@padding_cycles_by_list_length source_catalog easy_fillers).
  - discriminate.
  - exact H.
Defined.

(** C3 as the specification words it fails on the script itself: the first
    appended record (k = 0, position 97, id 98) is built from the filler at
    index 97 % 5 = 2, whose prompt is [arr.clear()], and not from the filler
    at index 0 % 5 = 0, whose prompt is [return len(arr)]. *)
Lemma first_filler_is_not_the_first_of_the_pool :
  exists output q f0 f2,
    length (questions (working source_catalog)) = 97 /\
    generate source_catalog easy_fillers = Done output /\
    nth_error (doc_questions output) (97 + 0) = Some q /\
    nth_error easy_fillers (0 mod length easy_fillers) = Some f0 /\
    nth_error easy_fillers ((97 + 0) mod length easy_fillers) = Some f2 /\
    q = filler_question f2 98 /\
    q <> filler_question f0 98 /\
    prompt q = "arr.clear()" /\
    prompt (filler_question f0 98) = "return len(arr)".
Proof.
  do 4 eexists.
  split; [vm_compute; reflexivity|].
  split; [vm_compute; reflexivity|].
  split; [vm_compute; reflexivity|].
  split; [vm_compute; reflexivity|].
  split; [vm_compute; reflexivity|].
  split; [vm_compute; reflexivity|].
  split; [vm_compute; discriminate|].
  split; vm_compute; reflexivity.
Qed.

(** ** Records of one loop in the output *)

(** The [k]-th entry of the loop [st] that follows the loops [pre] is built
    with the counter at [counter_at pre k], lands at position
    [offset pre + k] and stays there to the end of the loops. *)
Lemma stage_record (pre post : list stage) (st : stage) (k : nat)
    (x : item st) :
  nth_error (pool st) k = Some x ->
  nth_error (questions (run_stages (pre ++ st :: post) init)) (offset pre + k)
  = Some (make st x (counter_at pre k)).
Proof.
  intros Hx.
  replace (pre ++ st :: post) with (pre ++ [st] ++ post) by reflexivity.
  rewrite !run_stages_app.
  eapply extends_nth_error; [apply extends_run_stages|].
  unfold run_stages at 1; cbn [fold_left].
  rewrite run_stage_questions, nth_error_app2;
    rewrite run_stages_length; cbn [init questions length]; [|lia].
  replace (offset pre + k - (0 + offset pre)) with k by lia.
  apply nth_error_expand. exact Hx.
Qed.

Lemma counter_at_offset (pre : list stage) (k : nat) :
  counter_at pre k = Z.of_nat (offset pre + k + 1).
Proof.
  unfold counter_at. rewrite run_stages_question_id.
  cbn [init question_id]. lia.
Qed.

(** A record of the working corpus at a position below 200 is the record of
    the output at this position. *)
Lemma generate_keeps_working (c : catalog) (fillers : quint_pool) :
  fillers <> [] ->
  exists output,
    generate c fillers = Done output /\
    length (doc_questions output) = 200 /\
    forall i q,
      i < 200 ->
      nth_error (questions (working c)) i = Some q ->
      nth_error (doc_questions output) i = Some q.
Proof.
  intros Hne.
  destruct (generate_total c Hne) as [s' [Hgen [_ [Hext Hlen]]]].
  exists (cap s'). split; [exact Hgen|].
  split; [apply cap_length; lia|].
  intros i q Hi Hq. rewrite nth_error_cap by exact Hi.
  eapply extends_nth_error; eassumption.
Qed.

Lemma ologn_code_record (c : catalog) (k : nat) (x : string * string) :
  nth_error (ologn_code_snippets c) k = Some x ->
  nth_error (questions (working c)) (ologn_code_start c + k) =
    Some (ologn_code_question x
            (counter_at (firstn 2 (stages c)) k)) /\
  counter_at (firstn 2 (stages c)) k =
    Z.of_nat (ologn_code_start c + k + 1).
Proof.
  intros Hx. split.
  - pose proof (@stage_record (firstn 2 (stages c)) (skipn 3 (stages c))
                  (Stage ologn_code_question (ologn_code_snippets c)) k x Hx)
      as H.
    replace (offset (firstn 2 (stages c))) with (ologn_code_start c) in H
      by (unfold ologn_code_start, offset; cbn; lia).
    exact H.
  - rewrite counter_at_offset. do 2 f_equal.
    unfold ologn_code_start, offset; cbn; lia.
Qed.

Lemma on2_code_record (c : catalog) (k : nat) (x : string * string) :
  nth_error (on2_code_snippets c) k = Some x ->
  nth_error (questions (working c)) (on2_code_start c + k) =
    Some (on2_code_question x
            (counter_at (firstn 8 (stages c)) k)) /\
  counter_at (firstn 8 (stages c)) k =
    Z.of_nat (on2_code_start c + k + 1).
Proof.
  intros Hx. split.
  - pose proof (@stage_record (firstn 8 (stages c)) (skipn 9 (stages c))
                  (Stage on2_code_question (on2_code_snippets c)) k x Hx)
      as H.
    replace (offset (firstn 8 (stages c))) with (on2_code_start c) in H
      by (unfold on2_code_start, ologn_code_start, offset; cbn; lia).
    exact H.
  - rewrite counter_at_offset. do 2 f_equal.
    unfold on2_code_start, ologn_code_start, offset; cbn; lia.
Qed.

(** ** Substring search *)

Lemma prefix_append (sub : string) :
  forall s,
    String.prefix sub s = true <-> exists post, s = String.append sub post.
Proof.
  induction sub as [|a sub IH]; intros s.
  - split; [intros _; now exists s | intros _; destruct s; reflexivity].
  - destruct s as [|b s]; cbn [String.prefix String.append].
    + split; [discriminate | intros [post H]; discriminate].
    + destruct (Ascii.ascii_dec a b) as [->|NE].
      * rewrite IH. split; intros [post H]; exists post.
        -- now rewrite H.
        -- now injection H.
      * split; [discriminate | intros [post H]; injection H; congruence].
Qed.

Lemma contains_eq (sub s : string) :
  contains sub s =
  if String.prefix sub s then true
  else match s with
       | EmptyString => false
       | String _ rest => contains sub rest
       end.
Proof. destruct s; reflexivity. Qed.

(** [contains] decides occurrence as a substring. *)
Lemma contains_correct (sub s : string) :
  contains sub s = true <-> occurs_in sub s.
Proof.
  unfold occurs_in. split.
  - induction s as [|a s IH]; rewrite contains_eq;
      destruct (String.prefix sub _) eqn:Hp.
    + intros _. apply prefix_append in Hp as [post ->]. now exists EmptyString, post.
    + discriminate.
    + intros _. apply prefix_append in Hp as [post ->]. now exists EmptyString, post.
    + intros H. destruct (IH H) as [pre [post ->]].
      now exists (String a pre), post.
  - intros [pre [post ->]].
    induction pre as [|a pre IH]; rewrite contains_eq.
    + cbn [String.append].
      replace (String.prefix sub (String.append sub post)) with true;
        [reflexivity|].
      symmetry. apply prefix_append. now exists post.
    + cbn [String.append] in *.
      destruct (String.prefix sub _); [reflexivity | exact IH].
Qed.

(** The language written by the two mixed-language loops. *)
Lemma mixed_language_markers (code : string) :
  let lang :=
    if contains "cout" code || contains "int i" code then "cpp"
    else "python" in
  (Some lang = Some "cpp" <->
     occurs_in "cout" code \/ occurs_in "int i" code) /\
  (Some lang = Some "python" <->
     ~ (occurs_in "cout" code \/ occurs_in "int i" code)).
Proof.
  cbv zeta. rewrite <- !contains_correct.
  destruct (contains "cout" code), (contains "int i" code); cbn;
    (split; split; intros H;
     first [ reflexivity
           | discriminate H
           | left; reflexivity
           | right; reflexivity
           | exfalso; apply H; auto; fail
           | destruct H; discriminate
           | intros [?|?]; discriminate ]).
Qed.

(** ** The two loops with rules of their own *)

(** C6: in the output of every catalog (with a non-empty filler pool), the
    record of the [k]-th O(log n) code snippet - when its position is below
    200 - is the dictionary built when the loop reached it: its id is the
    value the counter had then, which is its position plus one, and its
    difficulty is "easy" when this counter is even and "medium" otherwise.
    The same holds for the O(n^2) code snippets, with "easy" when the counter
    is a multiple of 3.  Nothing after the append changes the record. *)
Theorem alternating_difficulty_by_counter (c : catalog)
    (fillers : quint_pool) :
  fillers <> [] ->
  exists output,
    generate c fillers = Done output /\
    (forall k code explanation,
        nth_error (ologn_code_snippets c) k = Some (code, explanation) ->
        ologn_code_start c + k < 200 ->
        exists q,
          nth_error (doc_questions output) (ologn_code_start c + k) = Some q /\
          q = ologn_code_question (code, explanation)
                (counter_at (firstn 2 (stages c)) k) /\
          prompt q = code /\
          id q = counter_at (firstn 2 (stages c)) k /\
          id q = Z.of_nat (ologn_code_start c + k + 1) /\
          difficulty q =
            if (counter_at (firstn 2 (stages c)) k mod 2 =? 0)%Z
            then "easy" else "medium") /\
    (forall k code explanation,
        nth_error (on2_code_snippets c) k = Some (code, explanation) ->
        on2_code_start c + k < 200 ->
        exists q,
          nth_error (doc_questions output) (on2_code_start c + k) = Some q /\
          q = on2_code_question (code, explanation)
                (counter_at (firstn 8 (stages c)) k) /\
          prompt q = code /\
          id q = counter_at (firstn 8 (stages c)) k /\
          id q = Z.of_nat (on2_code_start c + k + 1) /\
          difficulty q =
            if (counter_at (firstn 8 (stages c)) k mod 3 =? 0)%Z
            then "easy" else "medium").
Proof.
  intros Hne.
  destruct (generate_keeps_working c Hne) as [output [Hgen [_ Hkeep]]].
  exists output. split; [exact Hgen|].
  split; intros k code explanation Hx Hpos.
  - destruct (ologn_code_record c k Hx) as [Hq Hc].
    eexists. split; [apply Hkeep; [exact Hpos | exact Hq]|].
    repeat (split; [reflexivity|]). split; [exact Hc | reflexivity].
  - destruct (on2_code_record c k Hx) as [Hq Hc].
    eexists. split; [apply Hkeep; [exact Hpos | exact Hq]|].
    repeat (split; [reflexivity|]). split; [exact Hc | reflexivity].
Qed.

(** C6 on the literals of the script. *)
Lemma alternating_difficulty_by_counter_source :
  easy_fillers <> [] /\
  exists output,
    generate source_catalog easy_fillers = Done output /\
    (forall k code explanation,
        nth_error (ologn_code_snippets source_catalog) k =
          Some (code, explanation) ->
        ologn_code_start source_catalog + k < 200 ->
        exists q,
          nth_error (doc_questions output)
            (ologn_code_start source_catalog + k) = Some q /\
          q = ologn_code_question (code, explanation)
                (counter_at (firstn 2 (stages source_catalog)) k) /\
          prompt q = code /\
          id q = counter_at (firstn 2 (stages source_catalog)) k /\
          id q = Z.of_nat (ologn_code_start source_catalog + k + 1) /\
          difficulty q =
            if (counter_at (firstn 2 (stages source_catalog)) k mod 2 =? 0)%Z
            then "easy" else "medium") /\
    (forall k code explanation,
        nth_error (on2_code_snippets source_catalog) k =
          Some (code, explanation) ->
        on2_code_start source_catalog + k < 200 ->
        exists q,
          nth_error (doc_questions output)
            (on2_code_start source_catalog + k) = Some q /\
          q = on2_code_question (code, explanation)
                (counter_at (firstn 8 (stages source_catalog)) k) /\
          prompt q = code /\
          id q = counter_at (firstn 8 (stages source_catalog)) k /\
          id q = Z.of_nat (on2_code_start source_catalog + k + 1) /\
          difficulty q =
            if (counter_at (firstn 8 (stages source_catalog)) k mod 3 =? 0)%Z
            then "easy" else "medium").
Proof.
  split; [discriminate|].
  apply (@alternating_difficulty_by_counter source_catalog easy_fillers).
  discriminate.
Defined.

(** The script's own records of the two loops: ids 11-15 alternate from
    "medium", ids 42-46 are "easy" at 42 and 45. *)
Example source_alternation :
  exists output,
    generate source_catalog easy_fillers = Done output /\
    map (fun q => (id q, difficulty q))
      (firstn 5 (skipn 10 (doc_questions output))) =
      [(11, "medium"); (12, "easy"); (13, "medium"); (14, "easy");
       (15, "medium")]%Z /\
    map (fun q => (id q, difficulty q))
      (firstn 5 (skipn 41 (doc_questions output))) =
      [(42, "easy"); (43, "medium"); (44, "medium"); (45, "easy");
       (46, "medium")]%Z.
Proof.
  eexists. split; [vm_compute; reflexivity|].
  split; vm_compute; reflexivity.
Qed.

(** C7: in the output of every catalog (with a non-empty filler pool), the
    record of the [k]-th O(log n) code snippet and the record of the [k]-th
    O(n^2) code snippet - when below position 200 - have the language "cpp"
    exactly when the snippet text contains [cout] or [int i], and "python"
    exactly when it contains neither. *)
Theorem mixed_pool_language_by_markers (c : catalog) (fillers : quint_pool) :
  fillers <> [] ->
  exists output,
    generate c fillers = Done output /\
    (forall k code explanation,
        nth_error (ologn_code_snippets c) k = Some (code, explanation) ->
        ologn_code_start c + k < 200 ->
        exists q,
          nth_error (doc_questions output) (ologn_code_start c + k) = Some q /\
          prompt q = code /\
          type q = "code" /\
          language q =
            Some (if contains "cout" code || contains "int i" code
                  then "cpp" else "python") /\
          (language q = Some "cpp" <->
             occurs_in "cout" code \/ occurs_in "int i" code) /\
          (language q = Some "python" <->
             ~ (occurs_in "cout" code \/ occurs_in "int i" code))) /\
    (forall k code explanation,
        nth_error (on2_code_snippets c) k = Some (code, explanation) ->
        on2_code_start c + k < 200 ->
        exists q,
          nth_error (doc_questions output) (on2_code_start c + k) = Some q /\
          prompt q = code /\
          type q = "code" /\
          language q =
            Some (if contains "cout" code || contains "int i" code
                  then "cpp" else "python") /\
          (language q = Some "cpp" <->
             occurs_in "cout" code \/ occurs_in "int i" code) /\
          (language q = Some "python" <->
             ~ (occurs_in "cout" code \/ occurs_in "int i" code))).
Proof.
  intros Hne.
  destruct (generate_keeps_working c Hne) as [output [Hgen [_ Hkeep]]].
  exists output. split; [exact Hgen|].
  split; intros k code explanation Hx Hpos.
  - destruct (ologn_code_record c k Hx) as [Hq _].
    eexists. split; [apply Hkeep; [exact Hpos | exact Hq]|].
    repeat (split; [reflexivity|]). apply mixed_language_markers.
  - destruct (on2_code_record c k Hx) as [Hq _].
    eexists. split; [apply Hkeep; [exact Hpos | exact Hq]|].
    repeat (split; [reflexivity|]). apply mixed_language_markers.
Qed.

(** C7 on the literals of the script. *)
Lemma mixed_pool_language_by_markers_source :
  easy_fillers <> [] /\
  exists output,
    generate source_catalog easy_fillers = Done output /\
    (forall k code explanation,
        nth_error (ologn_code_snippets source_catalog) k =
          Some (code, explanation) ->
        ologn_code_start source_catalog + k < 200 ->
        exists q,
          nth_error (doc_questions output)
            (ologn_code_start source_catalog + k) = Some q /\
          prompt q = code /\
          type q = "code" /\
          language q =
            Some (if contains "cout" code || contains "int i" code
                  then "cpp" else "python") /\
          (language q = Some "cpp" <->
             occurs_in "cout" code \/ occurs_in "int i" code) /\
          (language q = Some "python" <->
             ~ (occurs_in "cout" code \/ occurs_in "int i" code))) /\
    (forall k code explanation,
        nth_error (on2_code_snippets source_catalog) k =
          Some (code, explanation) ->
        on2_code_start source_catalog + k < 200 ->
        exists q,
          nth_error (doc_questions output)
            (on2_code_start source_catalog + k) = Some q /\
          prompt q = code /\
          type q = "code" /\
          language q =
            Some (if contains "cout" code || contains "int i" code
                  then "cpp" else "python") /\
          (language q = Some "cpp" <->
             occurs_in "cout" code \/ occurs_in "int i" code) /\
          (language q = Some "python" <->
             ~ (occurs_in "cout" code \/ occurs_in "int i" code))).
Proof.
  split; [discriminate|].
  apply (@mixed_pool_language_by_markers source_catalog easy_fillers).
  discriminate.
Defined.

(** The script's own records of the two loops: one C++ snippet in each. *)
Example source_languages :
  exists output,
    generate source_catalog easy_fillers = Done output /\
    map language (firstn 5 (skipn 10 (doc_questions output))) =
      [Some "python"; Some "python"; Some "python"; Some "cpp";
       Some "python"] /\
    map language (firstn 5 (skipn 41 (doc_questions output))) =
      [Some "python"; Some "python"; Some "python"; Some "cpp";
       Some "python"].
Proof.
  eexists. split; [vm_compute; reflexivity|].
  split; vm_compute; reflexivity.
Qed.

(** ** The printed summary *)

Lemma fold_add_ones (cond : question -> bool) (qs : list question) :
  forall a,
    fold_left Z.add (map (fun _ => 1%Z) (filter cond qs)) a =
    (a + Z.of_nat (scan_count cond qs))%Z.
Proof.
  induction qs as [|q rest IH]; intros a; cbn [filter scan_count].
  - cbn. lia.
  - destruct (cond q); cbn [map fold_left]; rewrite IH; lia.
Qed.

Lemma count_if_scan (cond : question -> bool) (qs : list question) :
  count_if cond qs = Z.of_nat (scan_count cond qs).
Proof. unfold count_if, py_sum. now rewrite fold_add_ones. Qed.

Lemma scan_count_filter (cond : question -> bool) (qs : list question) :
  scan_count cond qs = length (filter cond qs).
Proof.
  induction qs as [|q rest IH]; cbn [filter scan_count]; [reflexivity|].
  destruct (cond q); cbn [length]; lia.
Qed.

(** C8: the printed summary of any document is the summary obtained by
    scanning its [questions] array.  On the script's own literals the scanned
    document is the dumped one, of 200 records, and the counts are 149 easy,
    32 medium, 19 hard, 154 code and 46 name records.  On a catalog with a
    surplus the counts are those of the 200 records kept, while the list the
    loops built has 210. *)
Theorem summary_counts_scan_the_output :
  (forall output, report output = scan_summary (doc_questions output)) /\
  (exists output,
      generate source_catalog easy_fillers = Done output /\
      main = Done (output, scan_summary (doc_questions output)) /\
      length (doc_questions output) = 200 /\
      scan_summary (doc_questions output) =
        {| total := 200; easy := 149; medium := 32; hard := 19;
           code := 154; names := 46 |}) /\
  (exists output,
      generate surplus_catalog easy_fillers = Done output /\
      code (report output) = 200%Z /\
      scan_count (fun q => String.eqb (type q) "code")
        (questions (working surplus_catalog)) = 210).
Proof.
  assert (Hscan : forall output,
             report output = scan_summary (doc_questions output)).
  { intros output. unfold report, scan_summary. cbv zeta.
    now rewrite !count_if_scan. }
  split; [exact Hscan|]. split.
  - eexists. split; [vm_compute; reflexivity|].
    split; [vm_compute; reflexivity|].
    split; vm_compute; reflexivity.
  - eexists. split; [vm_compute; reflexivity|].
    split; vm_compute; reflexivity.
Qed.

(** * Further properties of the script *)

(** ** Exceptions *)

Lemma while_pad_empty_pool (fuel : nat) (s : state) :
  length (questions s) < 200 ->
  while_pad (S fuel) [] s = Raised ZeroDivisionError.
Proof.
  intros Hlt. rewrite while_pad_eq.
  destruct (Nat.ltb_spec (length (questions s)) 200); [reflexivity | lia].
Qed.

(** X1: the only way a run fails is the division by zero of line 456, and
    it fails exactly when the filler pool is empty while the loops built
    fewer than 200 records; the index into the pool is never out of range
    and an empty pool is harmless when no padding is needed. *)
Theorem generate_raises_iff (c : catalog) (fillers : quint_pool) (e : exn) :
  generate c fillers = Raised e <->
  e = ZeroDivisionError /\ fillers = [] /\
  length (questions (working c)) < 200.
Proof.
  split.
  - intros Hgen.
    destruct fillers as [|f rest].
    + destruct (Nat.lt_ge_cases (length (questions (working c))) 200)
        as [Hlt|Hge].
      * unfold generate in Hgen.
        rewrite while_pad_empty_pool in Hgen by exact Hlt.
        injection Hgen as <-. auto.
      * unfold generate in Hgen.
        rewrite while_pad_long in Hgen by exact Hge. discriminate.
    + destruct (@generate_total c (f :: rest)) as [s' [Hdone _]];
        [discriminate | congruence].
  - intros [-> [-> Hlt]]. unfold generate.
    now rewrite while_pad_empty_pool.
Qed.

(** ** A catalog of exactly 200 records *)

(** X2: when the loops build exactly 200 records, the document holds the
    working corpus as it is - nothing appended, nothing cut - whatever the
    filler pool, which may be empty. *)
Theorem exact_quota_is_untouched (c : catalog) (fillers : quint_pool) :
  length (questions (working c)) = 200 ->
  generate c fillers = Done {| doc_questions := questions (working c) |}.
Proof.
  intros Hlen. unfold generate.
  rewrite while_pad_long by lia. unfold cap.
  rewrite firstn_all2 by lia. reflexivity.
Qed.

(** X2 on a catalog of 200 records and an empty filler pool. *)
Lemma exact_quota_is_untouched_at_200 :
  length (questions (working exact_catalog)) = 200 /\
  generate exact_catalog [] =
    Done {| doc_questions := questions (working exact_catalog) |}.
Proof.
  assert (H : length (questions (working exact_catalog)) = 200)
    by (vm_compute; reflexivity).
  split; [exact H|].
  apply (@exact_quota_is_untouched exact_catalog []). exact H.
Defined.

(** ** Repetition in the padding *)

(** X3: the padding repeats itself with the period of the pool: two padded
    positions [i] and [i + len(fillers)] below 200 hold records built from
    the same filler entry, equal in every field but the id, and their ids
    are [i + 1] and [i + len(fillers) + 1]. *)
Theorem padding_repeats_with_pool_period (c : catalog)
    (fillers : quint_pool) (i : nat) :
  fillers <> [] ->
  length (questions (working c)) <= i ->
  i + length fillers < 200 ->
  exists output q1 q2,
    generate c fillers = Done output /\
    nth_error (doc_questions output) i = Some q1 /\
    nth_error (doc_questions output) (i + length fillers) = Some q2 /\
    same_content q1 q2 /\
    id q1 = Z.of_nat (i + 1) /\
    id q2 = Z.of_nat (i + length fillers + 1).
Proof.
  intros Hne Hi Hbound.
  destruct (generate_padding c Hne) as [s' [Hgen [_ [Hge Hfill]]]].
  set (n := length (questions (working c))) in *.
  destruct (Hfill (i - n) ltac:(lia)) as [f1 [Hf1 Hq1]].
  destruct (Hfill (i + length fillers - n) ltac:(lia)) as [f2 [Hf2 Hq2]].
  replace (n + (i - n)) with i in * by lia.
  replace (n + (i + length fillers - n)) with (i + length fillers) in * by lia.
  assert (E : f2 = f1).
  { replace (i + length fillers) with (i + 1 * length fillers) in Hf2 by lia.
    rewrite Nat.Div0.mod_add in Hf2. congruence. }
  subst f2.
  exists (cap s'), (filler_question f1 (Z.of_nat (i + 1))),
    (filler_question f1 (Z.of_nat (i + length fillers + 1))).
  split; [exact Hgen|].
  split; [rewrite nth_error_cap by lia; exact Hq1|].
  split; [rewrite nth_error_cap by lia; exact Hq2|].
  destruct f1 as [[[[text expl] cx] diff] lang].
  unfold same_content. cbn. repeat split; reflexivity.
Qed.

(** X3 on the literals of the script, at position 100. *)
Lemma padding_repeats_with_pool_period_source :
  easy_fillers <> [] /\
  length (questions (working source_catalog)) <= 100 /\
  100 + length easy_fillers < 200 /\
  exists output q1 q2,
    generate source_catalog easy_fillers = Done output /\
    nth_error (doc_questions output) 100 = Some q1 /\
    nth_error (doc_questions output) (100 + length easy_fillers) = Some q2 /\
    same_content q1 q2 /\
    id q1 = Z.of_nat (100 + 1) /\
    id q2 = Z.of_nat (100 + length easy_fillers + 1).
Proof.
  assert (H1 : length (questions (working source_catalog)) <= 100)
    by (apply Nat.leb_le; vm_compute; reflexivity).
  assert (H2 : 100 + length easy_fillers < 200)
    by (apply Nat.ltb_lt; vm_compute; reflexivity).
  split; [discriminate|]. split; [exact H1|]. split; [exact H2|].
  apply (@padding_repeats_with_pool_period source_catalog easy_fillers 100).
  - discriminate.
  - exact H1.
  - exact H2.
Defined.

(** ** The working corpus is the catalog, in order *)

Lemma map_text_expand (X : Type) (mk : X -> Z -> question) (pool : list X) :
  (forall x qid, text_of (mk x qid) = text_of (mk x 0%Z)) ->
  forall qid,
    map text_of (expand mk qid pool) =
    map (fun x => text_of (mk x 0%Z)) pool.
Proof.
  intros Hfree.
  induction pool as [|x rest IH]; intros qid; cbn [expand map].
  - reflexivity.
  - now rewrite Hfree, IH.
Qed.

Lemma run_stages_text (sts : list stage) :
  Forall counter_free_text sts ->
  forall s,
    map text_of (questions (run_stages sts s)) =
    map text_of (questions s) ++ flat_map stage_entries sts.
Proof.
  unfold run_stages.
  induction 1 as [|st rest Hst _ IH]; intros s; cbn [fold_left flat_map].
  - now rewrite app_nil_r.
  - rewrite IH, run_stage_questions, map_app, <- app_assoc.
    do 2 f_equal. now apply map_text_expand.
Qed.

Lemma stages_counter_free (c : catalog) :
  Forall counter_free_text (stages c).
Proof. all_stages; reflexivity. Qed.

Lemma map_same (X : Type) (f : X -> X) (l : list X) :
  (forall x, f x = x) -> map f l = l.
Proof.
  intros H. rewrite <- (map_id l) at 2. apply map_ext. exact H.
Qed.

Lemma stages_entries (c : catalog) :
  flat_map stage_entries (stages c) = catalog_entries c.
Proof.
  unfold stages, catalog_entries, stage_entries.
  cbn [flat_map concat pool make].
  repeat (apply (f_equal2 (@app _));
          [ first [ apply map_same; intros x; split_entry; reflexivity
                  | apply map_ext; intros x; split_entry; reflexivity ] | ]).
  reflexivity.
Qed.

Lemma working_text (c : catalog) :
  map text_of (questions (working c)) = catalog_entries c.
Proof.
  unfold working.
  rewrite run_stages_text by apply stages_counter_free.
  cbn [init questions map app]. apply stages_entries.
Qed.

(** X4: the loops copy the catalog in order: the [(prompt, explanation)]
    pairs of the working corpus are the entries of the twenty pools, pool
    after pool in program order, none lost, added or reordered; the counter
    ends one above their number.  In the document, the part that comes from
    the catalog reads as the first 200 entries of the catalog. *)
Theorem output_follows_catalog_order (c : catalog) (fillers : quint_pool) :
  fillers <> [] ->
  exists output,
    generate c fillers = Done output /\
    map text_of (questions (working c)) = catalog_entries c /\
    question_id (working c) = Z.of_nat (length (catalog_entries c) + 1) /\
    firstn (length (catalog_entries c)) (map text_of (doc_questions output)) =
      firstn 200 (catalog_entries c).
Proof.
  intros Hne.
  destruct (generate_total c Hne) as [s' [Hgen [_ [[tl Hext] _]]]].
  pose proof (working_text c) as Htext.
  assert (Hlen : length (questions (working c)) = length (catalog_entries c))
    by (rewrite <- Htext; now rewrite length_map).
  exists (cap s'). split; [exact Hgen|]. split; [exact Htext|]. split.
  - destruct (dense_working c) as [_ ->]. rewrite Hlen. f_equal. lia.
  - unfold cap; cbn [doc_questions].
    rewrite <- firstn_map, Hext, map_app, Htext, firstn_firstn.
    rewrite firstn_app.
    destruct (Nat.le_ge_cases (length (catalog_entries c)) 200) as [Hle|Hge].
    + rewrite Nat.min_l by exact Hle.
      rewrite Nat.sub_diag, firstn_O, app_nil_r.
      now rewrite firstn_all, firstn_all2 by exact Hle.
    + rewrite Nat.min_r by exact Hge.
      replace (200 - length (catalog_entries c)) with 0 by lia.
      now rewrite firstn_O, app_nil_r.
Qed.

(** X4 on the literals of the script. *)
Lemma output_follows_catalog_order_source :
  easy_fillers <> [] /\
  exists output,
    generate source_catalog easy_fillers = Done output /\
    map text_of (questions (working source_catalog)) =
      catalog_entries source_catalog /\
    question_id (working source_catalog) =
      Z.of_nat (length (catalog_entries source_catalog) + 1) /\
    firstn (length (catalog_entries source_catalog))
      (map text_of (doc_questions output)) =
      firstn 200 (catalog_entries source_catalog).
Proof.
  split; [discriminate|].
  apply (@output_follows_catalog_order source_catalog easy_fillers).
  discriminate.
Defined.

(** ** The summary adds up *)

Lemma scan_types_partition (qs : list question) :
  Forall type_known qs ->
  scan_count (fun q => String.eqb (type q) "code") qs +
  scan_count (fun q => String.eqb (type q) "name") qs = length qs.
Proof.
  induction 1 as [|q rest Hq _ IH]; cbn [scan_count length]; [reflexivity|].
  destruct Hq as [-> | ->].
  - rewrite String.eqb_refl.
    replace (String.eqb "code" "name") with false by reflexivity. lia.
  - rewrite String.eqb_refl.
    replace (String.eqb "name" "code") with false by reflexivity. lia.
Qed.

(** X5: for every catalog and every non-empty filler pool, the printed
    total is 200 and the two counts by type add up to it: every record is
    counted once, as code or as algorithm name. *)
Theorem summary_types_add_up (c : catalog) (fillers : quint_pool) :
  fillers <> [] ->
  exists output,
    generate c fillers = Done output /\
    total (report output) = 200%Z /\
    (code (report output) + names (report output))%Z = 200%Z.
Proof.
  intros Hne.
  destruct (@generate_Forall type_known c fillers Hne)
    as [output [Hgen [Hlen Hall]]].
  - eapply Forall_impl; [|apply stages_language].
    intros st H x qid. apply H.
  - intros f qid. apply filler_question_language.
  - exists output. split; [exact Hgen|].
    unfold report. cbv zeta. cbn [total code names].
    rewrite !count_if_scan, Hlen. split; [reflexivity|].
    rewrite <- Nat2Z.inj_add, (scan_types_partition Hall), Hlen. reflexivity.
Qed.

(** X5 on the literals of the script. *)
Lemma summary_types_add_up_source :
  easy_fillers <> [] /\
  exists output,
    generate source_catalog easy_fillers = Done output /\
    total (report output) = 200%Z /\
    (code (report output) + names (report output))%Z = 200%Z.
Proof.
  split; [discriminate|].
  apply (@summary_types_add_up source_catalog easy_fillers).
  discriminate.
Defined.

(** ** Labels stay in their closed sets *)

Lemma Forall_expand_in (X : Type) (P : question -> Prop)
    (mk : X -> Z -> question) (pool : list X) :
  (forall x qid, In x pool -> P (mk x qid)) ->
  forall qid, Forall P (expand mk qid pool).
Proof.
  induction pool as [|x rest IH]; intros H qid; cbn [expand]; constructor.
  - apply H. now left.
  - apply IH. intros y q Hy. apply H. now right.
Qed.

Lemma run_stages_Forall_in (P : question -> Prop) (sts : list stage) :
  Forall (fun st => forall x qid, In x (pool st) -> P (make st x qid)) sts ->
  forall s,
    Forall P (questions s) -> Forall P (questions (run_stages sts s)).
Proof.
  unfold run_stages.
  induction 1 as [|st rest Hst _ IH]; intros s Hs; cbn [fold_left]; auto.
  apply IH. rewrite run_stage_questions. apply Forall_app.
  split; [exact Hs | now apply Forall_expand_in].
Qed.

(** A property of the displays on the entries of the pools is a property
    of all output records. *)
Lemma generate_Forall_in (P : question -> Prop) (c : catalog)
    (fillers : quint_pool) :
  fillers <> [] ->
  Forall (fun st => forall x qid, In x (pool st) -> P (make st x qid))
    (stages c) ->
  (forall f qid, In f fillers -> P (filler_question f qid)) ->
  exists output,
    generate c fillers = Done output /\
    length (doc_questions output) = 200 /\
    Forall P (doc_questions output).
Proof.
  intros Hne Hst Hfill.
  destruct (@generate_rule (fun s => Forall P (questions s)) c fillers Hne)
    as [s' [Hgen [HP Hge]]].
  - unfold working. apply run_stages_Forall_in; [exact Hst | constructor].
  - intros s f Hs _ Hf. apply Forall_emit; [|exact Hs].
    apply Hfill. eapply nth_error_In; exact Hf.
  - exists (cap s'). split; [exact Hgen|].
    split; [now apply cap_length | now apply Forall_cap].
Qed.

(** Finds a string in a literal list, or one of the three tiers. *)
Ltac in_list := repeat first [reflexivity | left; reflexivity | right].

Ltac labels_by_display :=
  unfold known_labels, labels_of, known_complexity, known_difficulty;
  cbn [make];
  try unfold ologn_code_question; try unfold on2_code_question;
  try match goal with
      | |- context [Z.eqb ?a ?b] => destruct (Z.eqb a b)
      end;
  cbn; split; in_list.

Lemma stages_labels (c : catalog) :
  Forall known_labels (catalog_labels c) ->
  Forall (fun st => forall x qid,
              In x (pool st) -> known_labels (labels_of (make st x qid)))
    (stages c).
Proof.
  intros H. unfold catalog_labels in H.
  rewrite !Forall_app in H. destruct H as [H1 [H2 [H3 H4]]].
  rewrite Forall_map, Forall_forall in H1, H2, H3, H4.
  unfold stages.
  repeat (apply Forall_cons;
          [ intros x qid Hin; cbn in x, Hin;
            first [ pose proof (H1 _ Hin) as HL; split_entry; exact HL
                  | pose proof (H2 _ Hin) as HL; split_entry; exact HL
                  | pose proof (H3 _ Hin) as HL; split_entry; exact HL
                  | pose proof (H4 _ Hin) as HL; split_entry; exact HL
                  | split_entry; labels_by_display ]
          | ]).
  apply Forall_nil.
Qed.

Lemma scan_difficulties_partition (qs : list question) :
  Forall (fun q => known_difficulty (difficulty q)) qs ->
  scan_count (fun q => String.eqb (difficulty q) "easy") qs +
  scan_count (fun q => String.eqb (difficulty q) "medium") qs +
  scan_count (fun q => String.eqb (difficulty q) "hard") qs = length qs.
Proof.
  induction 1 as [|q rest Hq _ IH]; cbn [scan_count length]; [reflexivity|].
  destruct Hq as [-> | [-> | ->]]; rewrite String.eqb_refl.
  - replace (String.eqb "easy" "medium") with false by reflexivity.
    replace (String.eqb "easy" "hard") with false by reflexivity. lia.
  - replace (String.eqb "medium" "easy") with false by reflexivity.
    replace (String.eqb "medium" "hard") with false by reflexivity. lia.
  - replace (String.eqb "hard" "easy") with false by reflexivity.
    replace (String.eqb "hard" "medium") with false by reflexivity. lia.
Qed.

(** X6: when the complexity and difficulty labels that the catalog and the
    filler pool supply as data are among the eight classes and the three
    tiers, so are the labels of every output record - the loops with fixed
    or computed labels write no other - and the three printed difficulty
    counts add up to 200. *)
Theorem labels_stay_in_closed_sets (c : catalog) (fillers : quint_pool) :
  fillers <> [] ->
  Forall known_labels (catalog_labels c) ->
  Forall known_labels (map quint_labels fillers) ->
  exists output,
    generate c fillers = Done output /\
    Forall (fun q => known_labels (labels_of q)) (doc_questions output) /\
    (easy (report output) + medium (report output) + hard (report output))%Z
    = 200%Z.
Proof.
  intros Hne Hcat Hfill.
  rewrite Forall_map, Forall_forall in Hfill.
  destruct (@generate_Forall_in (fun q => known_labels (labels_of q))
              c fillers Hne (@stages_labels c Hcat))
    as [output [Hgen [Hlen Hall]]].
  - intros f qid Hf. pose proof (Hfill _ Hf) as HL.
    split_entry. exact HL.
  - exists output. split; [exact Hgen|]. split; [exact Hall|].
    unfold report. cbv zeta. cbn [easy medium hard].
    rewrite !count_if_scan, <- !Nat2Z.inj_add.
    rewrite scan_difficulties_partition, Hlen; [reflexivity|].
    eapply Forall_impl; [|exact Hall]. intros q [_ Hd]. exact Hd.
Qed.

(** X6 on the literals of the script. *)
Lemma labels_stay_in_closed_sets_source :
  easy_fillers <> [] /\
  Forall known_labels (catalog_labels source_catalog) /\
  Forall known_labels (map quint_labels easy_fillers) /\
  exists output,
    generate source_catalog easy_fillers = Done output /\
    Forall (fun q => known_labels (labels_of q)) (doc_questions output) /\
    (easy (report output) + medium (report output) + hard (report output))%Z
    = 200%Z.
Proof.
  assert (H1 : Forall known_labels (catalog_labels source_catalog)).
  { vm_compute.
    repeat (apply Forall_cons; [split; in_list|]). apply Forall_nil. }
  assert (H2 : Forall known_labels (map quint_labels easy_fillers)).
  { vm_compute.
    repeat (apply Forall_cons; [split; in_list|]). apply Forall_nil. }
  split; [discriminate|]. split; [exact H1|]. split; [exact H2|].
  apply (@labels_stay_in_closed_sets source_catalog easy_fillers).
  - discriminate.
  - exact H1.
  - exact H2.
Defined.

(** ** Fields the loops never fill *)

Lemma stages_no_spans (c : catalog) :
  Forall (stage_sat (fun _ q => highlight_spans q = [])) (stages c).
Proof. all_stages; reflexivity. Qed.

(** X7: no record of the output has highlight spans: every display writes
    the empty list, for every catalog and every non-empty filler pool. *)
Theorem output_has_no_highlight_spans (c : catalog) (fillers : quint_pool) :
  fillers <> [] ->
  exists output,
    generate c fillers = Done output /\
    Forall (fun q => highlight_spans q = []) (doc_questions output).
Proof.
  intros Hne.
  destruct (@generate_Forall (fun q => highlight_spans q = []) c fillers Hne)
    as [output [Hgen [_ Hall]]].
  - apply stages_no_spans.
  - intros f qid. split_entry. reflexivity.
  - now exists output.
Qed.

(** X7 on the literals of the script. *)
Lemma output_has_no_highlight_spans_source :
  easy_fillers <> [] /\
  exists output,
    generate source_catalog easy_fillers = Done output /\
    Forall (fun q => highlight_spans q = []) (doc_questions output).
Proof.
  split; [discriminate|].
  apply (@output_has_no_highlight_spans source_catalog easy_fillers).
  discriminate.
Defined.
